(** * The style sheet runtime of react-native-css-interop (native)

    A shallow embedding of
    [packages/react-native-css-interop/src/runtime/native/stylesheet.ts]:
    the metadata tagger [tagStyles], the registration entry points
    [register] and [create], the subscription set, [__reset] and
    [useVariables].

    JavaScript objects have an identity, and the metadata side table
    [styleMetaMap] is keyed by it.  Style payload objects are therefore
    represented by their address, and the arrays built by [Array.map] get
    addresses from an allocation counter kept in the state. *)

From Stdlib Require Import ZArith List Bool.
From stdpp Require Import base gmap strings list.

Local Open Scope Z_scope.
Local Open Scope string_scope.
Local Open Scope list_scope.

(** ** Values coming from the compiler *)

(** Opaque leaves of the compiled output.  The runtime never looks inside
    them; it only moves them around. *)
Inductive JsValue :=
  | JNum (n : Z)
  | JStr (s : string)
  | JBool (b : bool).

(** What [if (v)] makes of a leaf: [0], [""] and [false] are falsy. *)
Definition truthyValue (v : JsValue) : bool :=
  match v with
  | JNum n => negb (Z.eqb n 0)
  | JStr s => match s with EmptyString => false | String _ _ => true end
  | JBool b => b
  end.

(** Object identities.  A [StyleObj] is a style payload handed in by the
    caller, a [CallerArray] an array of descriptors handed in by the caller,
    an [ArrayObj] an array created by this module: [Array.map] returns a new
    object, different from every object the caller holds. *)
Inductive ObjRef :=
  | StyleObj (a : nat)
  | ArrayObj (a : nat)
  | CallerArray (a : nat).

#[global] Instance ObjRef_eq_dec : EqDecision ObjRef.
Proof. solve_decision. Defined.

Definition ObjRef_to_sum (r : ObjRef) : nat + (nat + nat) :=
  match r with
  | StyleObj a => inl a
  | ArrayObj a => inr (inl a)
  | CallerArray a => inr (inr a)
  end.

Definition ObjRef_of_sum (x : nat + (nat + nat)) : ObjRef :=
  match x with
  | inl a => StyleObj a
  | inr (inl a) => ArrayObj a
  | inr (inr a) => CallerArray a
  end.

#[global] Instance ObjRef_countable : Countable ObjRef.
Proof.
  apply (inj_countable' ObjRef_to_sum ObjRef_of_sum).
  intros []; reflexivity.
Defined.

(** [StyleProp]: what the rendering layer receives; a style object or an
    array of style objects. *)
Inductive StyleProp :=
  | PStyle (a : nat)
  | PArray (a : nat) (elems : list nat).

Definition identity (v : StyleProp) : ObjRef :=
  match v with
  | PStyle a => StyleObj a
  | PArray a _ => ArrayObj a
  end.

(** An animation name reference: [{ type: "none" }] or
    [{ type: t, value: v }]. *)
Module AnimationName.
Record t := { type : string; value : option string }.
End AnimationName.

(** [ExtractedAnimations]: only [name] is inspected here. *)
Module ExtractedAnimations.
Record t := { name : option (list AnimationName.t); rest : list JsValue }.
End ExtractedAnimations.

(** A keyframe definition stored in the animation map. *)
Module ExtractedAnimation.
Record t := { frames : list JsValue; requiresLayout : bool }.
End ExtractedAnimation.

(** [Partial<ExtractedContainer>] on the descriptor and the normalised
    [ExtractedContainer] on the metadata. *)
Module PartialContainer.
Record t := { names : option (list string); type : option string }.
End PartialContainer.

Module ExtractedContainer.
Record t := { names : option (list string); type : string }.
End ExtractedContainer.

(** The compiled descriptor.  Every field but [style] is optional. *)
Module ExtractedStyle.
Record t := {
  style : nat;
  isDynamic : option bool;
  variables : option (gmap string JsValue);
  media : option (list JsValue);
  pseudoClasses : option JsValue;
  animations : option ExtractedAnimations.t;
  container : option PartialContainer.t;
  containerQuery : option (list JsValue);
  transition : option JsValue;
  requiresLayout : option bool;
  prop : option JsValue;
  warnings : option (list JsValue)
}.

(** A descriptor that carries nothing but its payload. *)
Definition plain (a : nat) : t :=
  {| style := a; isDynamic := None; variables := None; media := None;
     pseudoClasses := None; animations := None; container := None;
     containerQuery := None; transition := None; requiresLayout := None;
     prop := None; warnings := None |}.
End ExtractedStyle.

(** The record kept in the side table. *)
Module StyleMeta.
Record t := {
  variables : option (gmap string JsValue);
  media : option (list JsValue);
  pseudoClasses : option JsValue;
  animations : option ExtractedAnimations.t;
  requiresLayout : option bool;
  container : option ExtractedContainer.t;
  containerQuery : option (list JsValue);
  transition : option JsValue;
  prop : option JsValue
}.

(** The object literal [{}]. *)
Definition empty : t :=
  {| variables := None; media := None; pseudoClasses := None;
     animations := None; requiresLayout := None; container := None;
     containerQuery := None; transition := None; prop := None |}.

Definition set_variables (x : gmap string JsValue) (m : t) : t :=
  {| variables := Some x; media := media m; pseudoClasses := pseudoClasses m;
     animations := animations m; requiresLayout := requiresLayout m;
     container := container m; containerQuery := containerQuery m;
     transition := transition m; prop := prop m |}.

Definition set_media (x : list JsValue) (m : t) : t :=
  {| variables := variables m; media := Some x; pseudoClasses := pseudoClasses m;
     animations := animations m; requiresLayout := requiresLayout m;
     container := container m; containerQuery := containerQuery m;
     transition := transition m; prop := prop m |}.

Definition set_pseudoClasses (x : JsValue) (m : t) : t :=
  {| variables := variables m; media := media m; pseudoClasses := Some x;
     animations := animations m; requiresLayout := requiresLayout m;
     container := container m; containerQuery := containerQuery m;
     transition := transition m; prop := prop m |}.

Definition set_animations (x : ExtractedAnimations.t) (m : t) : t :=
  {| variables := variables m; media := media m; pseudoClasses := pseudoClasses m;
     animations := Some x; requiresLayout := requiresLayout m;
     container := container m; containerQuery := containerQuery m;
     transition := transition m; prop := prop m |}.

Definition set_requiresLayout (x : bool) (m : t) : t :=
  {| variables := variables m; media := media m; pseudoClasses := pseudoClasses m;
     animations := animations m; requiresLayout := Some x;
     container := container m; containerQuery := containerQuery m;
     transition := transition m; prop := prop m |}.

Definition set_container (x : ExtractedContainer.t) (m : t) : t :=
  {| variables := variables m; media := media m; pseudoClasses := pseudoClasses m;
     animations := animations m; requiresLayout := requiresLayout m;
     container := Some x; containerQuery := containerQuery m;
     transition := transition m; prop := prop m |}.

Definition set_containerQuery (x : list JsValue) (m : t) : t :=
  {| variables := variables m; media := media m; pseudoClasses := pseudoClasses m;
     animations := animations m; requiresLayout := requiresLayout m;
     container := container m; containerQuery := Some x;
     transition := transition m; prop := prop m |}.

Definition set_transition (x : JsValue) (m : t) : t :=
  {| variables := variables m; media := media m; pseudoClasses := pseudoClasses m;
     animations := animations m; requiresLayout := requiresLayout m;
     container := container m; containerQuery := containerQuery m;
     transition := Some x; prop := prop m |}.

Definition set_prop (x : JsValue) (m : t) : t :=
  {| variables := variables m; media := media m; pseudoClasses := pseudoClasses m;
     animations := animations m; requiresLayout := requiresLayout m;
     container := container m; containerQuery := containerQuery m;
     transition := transition m; prop := Some x |}.
End StyleMeta.

(** The argument of [tagStyles]: [ExtractedStyle | ExtractedStyle[]].  An
    array is the caller's object [CallerArray self] with its elements. *)
Inductive StyleInput :=
  | One (d : ExtractedStyle.t)
  | Many (self : nat) (ds : list ExtractedStyle.t).

(** ** The environment *)

Inductive ColorSchemeName := Light | Dark.

(** [Dimensions.get("window")] and [Appearance.getColorScheme()] of a
    source, as the trackers read them. *)
Record DimensionSource := { window_width : Z; window_height : Z }.
Record AppearanceSource := { getColorScheme : option ColorSchemeName }.

(** What the module reads from its surroundings: [process.env.NODE_ENV],
    the platform's live [Dimensions] and [Appearance], and the initial
    value of the [rem] tracker. *)
Record Env := {
  NODE_ENV : option string;
  Dimensions : DimensionSource;
  Appearance : AppearanceSource;
  remDefault : Z
}.

(** [process.env.NODE_ENV !== "production"] *)
Definition notProduction (env : Env) : bool :=
  match NODE_ENV env with
  | Some v => negb (String.eqb v "production")
  | None => true
  end.

(** ** The module state *)

(** Functions are compared by identity when stored in a [Set]. *)
Definition Callback := nat.

(** The [./globals] registries, the four module-level variable scopes, the
    subscription set, the array allocation counter, and a ghost log of the
    callbacks invoked so far (subscriber bodies live outside this module;
    they are recorded, in the order they are called, by their identity). *)
Record State := {
  globalStyles : gmap string StyleProp;
  animationMap : gmap string ExtractedAnimation.t;
  warnings : gmap string (list JsValue);
  warned : gset string;
  styleMetaMap : gmap ObjRef StyleMeta.t;
  rem : Z;
  vw : Z;
  vh : Z;
  colorScheme : option ColorSchemeName;
  rootVariables : gmap string JsValue;
  rootDarkVariables : gmap string JsValue;
  defaultVariables : gmap string JsValue;
  defaultDarkVariables : gmap string JsValue;
  subscriptions : list Callback;
  nextArray : nat;
  invoked : list Callback
}.

(** Assignment to one component of the state. *)
Definition set_globalStyles (x : gmap string StyleProp) (s : State) : State :=
  {| globalStyles := x; animationMap := animationMap s;
     warnings := warnings s; warned := warned s;
     styleMetaMap := styleMetaMap s; rem := rem s; vw := vw s; vh := vh s;
     colorScheme := colorScheme s; rootVariables := rootVariables s;
     rootDarkVariables := rootDarkVariables s;
     defaultVariables := defaultVariables s;
     defaultDarkVariables := defaultDarkVariables s;
     subscriptions := subscriptions s; nextArray := nextArray s;
     invoked := invoked s |}.

Definition set_animationMap (x : gmap string ExtractedAnimation.t) (s : State) : State :=
  {| globalStyles := globalStyles s; animationMap := x;
     warnings := warnings s; warned := warned s;
     styleMetaMap := styleMetaMap s; rem := rem s; vw := vw s; vh := vh s;
     colorScheme := colorScheme s; rootVariables := rootVariables s;
     rootDarkVariables := rootDarkVariables s;
     defaultVariables := defaultVariables s;
     defaultDarkVariables := defaultDarkVariables s;
     subscriptions := subscriptions s; nextArray := nextArray s;
     invoked := invoked s |}.

Definition set_warnings (x : gmap string (list JsValue)) (s : State) : State :=
  {| globalStyles := globalStyles s; animationMap := animationMap s;
     warnings := x; warned := warned s; styleMetaMap := styleMetaMap s;
     rem := rem s; vw := vw s; vh := vh s; colorScheme := colorScheme s;
     rootVariables := rootVariables s;
     rootDarkVariables := rootDarkVariables s;
     defaultVariables := defaultVariables s;
     defaultDarkVariables := defaultDarkVariables s;
     subscriptions := subscriptions s; nextArray := nextArray s;
     invoked := invoked s |}.

Definition set_styleMetaMap (x : gmap ObjRef StyleMeta.t) (s : State) : State :=
  {| globalStyles := globalStyles s; animationMap := animationMap s;
     warnings := warnings s; warned := warned s; styleMetaMap := x;
     rem := rem s; vw := vw s; vh := vh s; colorScheme := colorScheme s;
     rootVariables := rootVariables s;
     rootDarkVariables := rootDarkVariables s;
     defaultVariables := defaultVariables s;
     defaultDarkVariables := defaultDarkVariables s;
     subscriptions := subscriptions s; nextArray := nextArray s;
     invoked := invoked s |}.

Definition set_rootVariables (x : gmap string JsValue) (s : State) : State :=
  {| globalStyles := globalStyles s; animationMap := animationMap s;
     warnings := warnings s; warned := warned s;
     styleMetaMap := styleMetaMap s; rem := rem s; vw := vw s; vh := vh s;
     colorScheme := colorScheme s; rootVariables := x;
     rootDarkVariables := rootDarkVariables s;
     defaultVariables := defaultVariables s;
     defaultDarkVariables := defaultDarkVariables s;
     subscriptions := subscriptions s; nextArray := nextArray s;
     invoked := invoked s |}.

Definition set_rootDarkVariables (x : gmap string JsValue) (s : State) : State :=
  {| globalStyles := globalStyles s; animationMap := animationMap s;
     warnings := warnings s; warned := warned s;
     styleMetaMap := styleMetaMap s; rem := rem s; vw := vw s; vh := vh s;
     colorScheme := colorScheme s; rootVariables := rootVariables s;
     rootDarkVariables := x; defaultVariables := defaultVariables s;
     defaultDarkVariables := defaultDarkVariables s;
     subscriptions := subscriptions s; nextArray := nextArray s;
     invoked := invoked s |}.

Definition set_defaultVariables (x : gmap string JsValue) (s : State) : State :=
  {| globalStyles := globalStyles s; animationMap := animationMap s;
     warnings := warnings s; warned := warned s;
     styleMetaMap := styleMetaMap s; rem := rem s; vw := vw s; vh := vh s;
     colorScheme := colorScheme s; rootVariables := rootVariables s;
     rootDarkVariables := rootDarkVariables s; defaultVariables := x;
     defaultDarkVariables := defaultDarkVariables s;
     subscriptions := subscriptions s; nextArray := nextArray s;
     invoked := invoked s |}.

Definition set_defaultDarkVariables (x : gmap string JsValue) (s : State) : State :=
  {| globalStyles := globalStyles s; animationMap := animationMap s;
     warnings := warnings s; warned := warned s;
     styleMetaMap := styleMetaMap s; rem := rem s; vw := vw s; vh := vh s;
     colorScheme := colorScheme s; rootVariables := rootVariables s;
     rootDarkVariables := rootDarkVariables s;
     defaultVariables := defaultVariables s; defaultDarkVariables := x;
     subscriptions := subscriptions s; nextArray := nextArray s;
     invoked := invoked s |}.

Definition set_subscriptions (x : list Callback) (s : State) : State :=
  {| globalStyles := globalStyles s; animationMap := animationMap s;
     warnings := warnings s; warned := warned s;
     styleMetaMap := styleMetaMap s; rem := rem s; vw := vw s; vh := vh s;
     colorScheme := colorScheme s; rootVariables := rootVariables s;
     rootDarkVariables := rootDarkVariables s;
     defaultVariables := defaultVariables s;
     defaultDarkVariables := defaultDarkVariables s; subscriptions := x;
     nextArray := nextArray s; invoked := invoked s |}.

Definition set_nextArray (x : nat) (s : State) : State :=
  {| globalStyles := globalStyles s; animationMap := animationMap s;
     warnings := warnings s; warned := warned s;
     styleMetaMap := styleMetaMap s; rem := rem s; vw := vw s; vh := vh s;
     colorScheme := colorScheme s; rootVariables := rootVariables s;
     rootDarkVariables := rootDarkVariables s;
     defaultVariables := defaultVariables s;
     defaultDarkVariables := defaultDarkVariables s;
     subscriptions := subscriptions s; nextArray := x;
     invoked := invoked s |}.

Definition set_invoked (x : list Callback) (s : State) : State :=
  {| globalStyles := globalStyles s; animationMap := animationMap s;
     warnings := warnings s; warned := warned s;
     styleMetaMap := styleMetaMap s; rem := rem s; vw := vw s; vh := vh s;
     colorScheme := colorScheme s; rootVariables := rootVariables s;
     rootDarkVariables := rootDarkVariables s;
     defaultVariables := defaultVariables s;
     defaultDarkVariables := defaultDarkVariables s;
     subscriptions := subscriptions s; nextArray := nextArray s;
     invoked := x |}.

(** ** A state monad for the module's side effects *)

Definition M (A : Type) : Type := State -> A * State.

#[global] Instance M_ret : MRet M := fun A (x : A) s => (x, s).
#[global] Instance M_bind : MBind M := fun A B (f : A -> M B) (c : M A) s =>
  let (x, s') := c s in f x s'.

Definition gets {A} (f : State -> A) : M A := fun s => (f s, s).
Definition modify (f : State -> State) : M unit := fun s => (tt, f s).
Definition when (b : bool) (c : M unit) : M unit := if b then c else mret tt.
Definition exec {A} (c : M A) (s : State) : State := snd (c s).
Definition eval {A} (c : M A) (s : State) : A := fst (c s).

(** [for (const x of l) body(x)] *)
Fixpoint forOf {A} (l : list A) (body : A -> M unit) : M unit :=
  match l with
  | [] => mret tt
  | x :: l' => body x;; forOf l' body
  end.

(** ** The metadata tagger *)

(** The locals [hasMeta] and [meta] of the single-descriptor branch. *)
Record TagLocals := { hasMeta : bool; meta : StyleMeta.t }.

Definition noteMeta (m : StyleMeta.t) : TagLocals :=
  {| hasMeta := true; meta := m |}.

(** Truthiness of an optional boolean field; the object-valued fields
    ([variables], [animations], [container], [containerQuery], [warnings])
    are truthy whenever they are there. *)
Definition truthy (b : option bool) : bool :=
  match b with Some true => true | _ => false end.

(** [nameObj.type === "none" ? "none" : nameObj.value] *)
Definition lookupName (n : AnimationName.t) : option string :=
  if String.eqb (AnimationName.type n) "none" then Some "none"
  else AnimationName.value n.

(** [animationMap.get(name)?.requiresLayout], as [some] tests it. *)
Definition nameRequiresLayout
    (am : gmap string ExtractedAnimation.t) (n : AnimationName.t) : bool :=
  match lookupName n with
  | Some k =>
      match am !! k with
      | Some a => ExtractedAnimation.requiresLayout a
      | None => false
      end
  | None => false
  end.

(** [styles.animations.name?.some(...)] *)
Definition animationsRequireLayout
    (am : gmap string ExtractedAnimation.t) (a : ExtractedAnimations.t) : bool :=
  match ExtractedAnimations.name a with
  | Some ns => existsb (nameRequiresLayout am) ns
  | None => false
  end.

(** One definition per [if] statement of the branch, in source order. *)
Definition tag_isDynamic (d : ExtractedStyle.t) (l : TagLocals) : TagLocals :=
  if truthy (ExtractedStyle.isDynamic d) then noteMeta (meta l) else l.

Definition tag_variables (d : ExtractedStyle.t) (l : TagLocals) : TagLocals :=
  match ExtractedStyle.variables d with
  | Some v => noteMeta (StyleMeta.set_variables v (meta l))
  | None => l
  end.

Definition tag_media (d : ExtractedStyle.t) (l : TagLocals) : TagLocals :=
  match ExtractedStyle.media d with
  | Some q => if (0 <? length q)%nat then noteMeta (StyleMeta.set_media q (meta l)) else l
  | None => l
  end.

Definition tag_pseudoClasses (d : ExtractedStyle.t) (l : TagLocals) : TagLocals :=
  match ExtractedStyle.pseudoClasses d with
  | Some p =>
      if truthyValue p then noteMeta (StyleMeta.set_pseudoClasses p (meta l)) else l
  | None => l
  end.

Definition tag_animations (am : gmap string ExtractedAnimation.t)
    (d : ExtractedStyle.t) (l : TagLocals) : TagLocals :=
  match ExtractedStyle.animations d with
  | Some a =>
      let m := StyleMeta.set_animations a (meta l) in
      let requiresLayout := animationsRequireLayout am a in
      noteMeta (if requiresLayout then StyleMeta.set_requiresLayout true m else m)
  | None => l
  end.

Definition tag_container (d : ExtractedStyle.t) (l : TagLocals) : TagLocals :=
  match ExtractedStyle.container d with
  | Some c =>
      noteMeta (StyleMeta.set_container
        {| ExtractedContainer.names := PartialContainer.names c;
           ExtractedContainer.type := default "normal" (PartialContainer.type c) |}
        (meta l))
  | None => l
  end.

Definition tag_containerQuery (d : ExtractedStyle.t) (l : TagLocals) : TagLocals :=
  match ExtractedStyle.containerQuery d with
  | Some q => noteMeta (StyleMeta.set_containerQuery q (meta l))
  | None => l
  end.

Definition tag_transition (d : ExtractedStyle.t) (l : TagLocals) : TagLocals :=
  match ExtractedStyle.transition d with
  | Some t =>
      if truthyValue t then noteMeta (StyleMeta.set_transition t (meta l)) else l
  | None => l
  end.

Definition tag_requiresLayout (d : ExtractedStyle.t) (l : TagLocals) : TagLocals :=
  match ExtractedStyle.requiresLayout d with
  | Some b => if b then noteMeta (StyleMeta.set_requiresLayout b (meta l)) else l
  | None => l
  end.

Definition tag_prop (d : ExtractedStyle.t) (l : TagLocals) : TagLocals :=
  match ExtractedStyle.prop d with
  | Some p => if truthyValue p then noteMeta (StyleMeta.set_prop p (meta l)) else l
  | None => l
  end.

(** The locals when the last [if] that touches them has run. *)
Definition buildMeta (am : gmap string ExtractedAnimation.t)
    (d : ExtractedStyle.t) : TagLocals :=
  let l := {| hasMeta := false; meta := StyleMeta.empty |} in
  let l := tag_isDynamic d l in
  let l := tag_variables d l in
  let l := tag_media d l in
  let l := tag_pseudoClasses d l in
  let l := tag_animations am d l in
  let l := tag_container d l in
  let l := tag_containerQuery d l in
  let l := tag_transition d l in
  let l := tag_requiresLayout d l in
  tag_prop d l.

(** [warnings.set(name, w)] and [styleMetaMap.set(key, m)] *)
Definition warnings_set (name : string) (w : list JsValue) : M unit :=
  modify (fun s => set_warnings (<[name := w]> (warnings s)) s).

Definition styleMetaMap_set (key : ObjRef) (m : StyleMeta.t) : M unit :=
  modify (fun s => set_styleMetaMap (<[key := m]> (styleMetaMap s)) s).

(** [styleMetaMap.has(key)] *)
Definition styleMetaMap_has (key : ObjRef) : M bool :=
  gets (fun s => bool_decide (is_Some (styleMetaMap s !! key))).

(** The [else] branch of [tagStyles]: a single descriptor.  The result is
    [styles.style] itself. *)
Definition tagStyle (env : Env) (name : string) (d : ExtractedStyle.t) : M nat :=
  am ← gets animationMap;
  let l := buildMeta am d in
  when (notProduction env)
    (match ExtractedStyle.warnings d with
     | Some w => warnings_set name w
     | None => mret tt
     end);;
  when (hasMeta l) (styleMetaMap_set (StyleObj (ExtractedStyle.style d)) (meta l));;
  mret (ExtractedStyle.style d).

(** The callback of [styles.map], run over the elements in order; [didTag]
    is the variable the callback closes over. *)
Fixpoint mapTag (env : Env) (name : string) (ds : list ExtractedStyle.t)
    (didTag : bool) : M (list nat * bool) :=
  match ds with
  | [] => mret ([], didTag)
  | d :: ds' =>
      taggedStyle ← tagStyle env name d;
      has ← styleMetaMap_has (StyleObj (ExtractedStyle.style d));
      r ← mapTag env name ds' (didTag || has);
      mret (taggedStyle :: fst r, snd r)
  end.

(** [Array.map] creates its result array: a new object. *)
Definition newArray : M nat :=
  fun s => (nextArray s, set_nextArray (S (nextArray s)) s).

Definition tagStyles (env : Env) (name : string) (styles : StyleInput) : M StyleProp :=
  match styles with
  | Many _ ds =>
      a ← newArray;
      r ← mapTag env name ds false;
      when (snd r) (styleMetaMap_set (ArrayObj a) StyleMeta.empty);;
      mret (PArray a (fst r))
  | One d =>
      v ← tagStyle env name d;
      mret (PStyle v)
  end.

(** ** The subscription set *)

(** A JavaScript [Set] keeps its elements in insertion order and holds each
    at most once. *)
Fixpoint jsSet_add (x : Callback) (l : list Callback) : list Callback :=
  match l with
  | [] => [x]
  | y :: l' => if decide (x = y) then l else y :: jsSet_add x l'
  end.

Fixpoint jsSet_delete (x : Callback) (l : list Callback) : list Callback :=
  match l with
  | [] => []
  | y :: l' => if decide (x = y) then jsSet_delete x l' else y :: jsSet_delete x l'
  end.

(** Calling a subscriber.  Its body is code outside this file.  What is
    embedded is this module's side of the call for a subscriber that returns
    normally and does not call back into the module while the loop runs: the
    call is recorded in the log.  Subscribers that throw, or that subscribe,
    unsubscribe or register from inside a broadcast, are not covered. *)
Definition call (cb : Callback) : M unit :=
  modify (fun s => set_invoked (invoked s ++ [cb]) s).

(** [for (const subscription of subscriptions) subscription()] *)
Definition broadcast : M unit :=
  subs ← gets subscriptions;
  forOf subs call.

(** The arrow function returned by [__subscribe]. *)
Definition unsubscribe (subscription : Callback) : M unit :=
  modify (fun s => set_subscriptions (jsSet_delete subscription (subscriptions s)) s).

Definition __subscribe (subscription : Callback) : M (M unit) :=
  modify (fun s => set_subscriptions (jsSet_add subscription (subscriptions s)) s);;
  mret (unsubscribe subscription).

Definition classNameMergeStrategy (c : string) : string := c.

(** ** Registration *)

Module Options.
(** [StyleSheetRegisterOptions]; the two records are given by their
    [Object.entries]. *)
Record t := {
  keyframes : option (list (string * ExtractedAnimation.t));
  declarations : option (list (string * StyleInput));
  defaultVariables : option (gmap string JsValue);
  defaultDarkVariables : option (gmap string JsValue);
  rootVariables : option (gmap string JsValue);
  rootDarkVariables : option (gmap string JsValue)
}.

Definition none : t :=
  {| keyframes := None; declarations := None; defaultVariables := None;
     defaultDarkVariables := None; rootVariables := None;
     rootDarkVariables := None |}.
End Options.

(** Object spread: [{ ...a, ...b }], the entries of [b] winning.  Spreading
    [undefined] contributes nothing. *)
Definition spread (a b : gmap string JsValue) : gmap string JsValue := b ∪ a.

Definition orEmpty (o : option (gmap string JsValue)) : gmap string JsValue :=
  default ∅ o.

(** [animationMap.set(name, keyframes)] and [globalStyles.set(name, v)] *)
Definition animationMap_set (name : string) (keyframes : ExtractedAnimation.t) : M unit :=
  modify (fun s => set_animationMap (<[name := keyframes]> (animationMap s)) s).

Definition globalStyles_set (name : string) (v : StyleProp) : M unit :=
  modify (fun s => set_globalStyles (<[name := v]> (globalStyles s)) s).

Definition register (env : Env) (options : Options.t) : M unit :=
  match Options.keyframes options with
  | Some ks =>
      forOf ks (fun '(name, keyframes) => animationMap_set name keyframes)
  | None => mret tt
  end;;
  match Options.declarations options with
  | Some ds =>
      forOf ds (fun '(name, styles) =>
        v ← tagStyles env name styles;
        globalStyles_set name v)
  | None => mret tt
  end;;
  match Options.defaultVariables options with
  | Some dv => modify (set_defaultVariables dv)
  | None => mret tt
  end;;
  match Options.defaultDarkVariables options with
  | Some ddv =>
      modify (set_defaultDarkVariables
                (spread (orEmpty (Options.defaultVariables options)) ddv))
  | None => mret tt
  end;;
  match Options.rootVariables options with
  | Some rv =>
      modify (fun s => set_rootVariables (spread rv (defaultVariables s)) s)
  | None => mret tt
  end;;
  match Options.rootDarkVariables options with
  | Some rdv =>
      modify (fun s =>
        set_rootDarkVariables
          (spread (spread (orEmpty (Options.rootVariables options)) rdv)
                  (defaultDarkVariables s)) s)
  | None => mret tt
  end;;
  broadcast.

(** The loop of [create], with the local [namedStyles] threaded through. *)
Fixpoint createLoop (env : Env) (entries : list (string * ExtractedStyle.t))
    (namedStyles : gmap string StyleProp) : M (gmap string StyleProp) :=
  match entries with
  | [] => mret namedStyles
  | (name, style) :: rest =>
      v ← tagStyles env name (One style);
      createLoop env rest (<[name := v]> namedStyles)
  end.

Definition create (env : Env) (styles : list (string * ExtractedStyle.t))
    : M (gmap string StyleProp) :=
  namedStyles ← createLoop env styles ∅;
  broadcast;;
  mret namedStyles.

(** ** Reset *)

(** Modelled from the spec: the trackers [rem], [vw], [vh] and
    [colorScheme] of [./globals] and their [reset] methods are not part of
    this file.  Resetting reinitialises the rem tracker to its initial
    value, the two viewport trackers from the dimension source, and the
    colour-scheme tracker from the appearance source. *)
Definition trackers_reset (env : Env) (dimensions : DimensionSource)
    (appearance : AppearanceSource) (s : State) : State :=
  {| globalStyles := globalStyles s; animationMap := animationMap s;
     warnings := warnings s; warned := warned s;
     styleMetaMap := styleMetaMap s;
     rem := remDefault env;
     vw := window_width dimensions;
     vh := window_height dimensions;
     colorScheme := getColorScheme appearance;
     rootVariables := rootVariables s;
     rootDarkVariables := rootDarkVariables s;
     defaultVariables := defaultVariables s;
     defaultDarkVariables := defaultDarkVariables s;
     subscriptions := subscriptions s; nextArray := nextArray s;
     invoked := invoked s |}.

(** The destructured argument of [__reset]. *)
Record ResetConfig := {
  dimensions : option DimensionSource;
  appearance : option AppearanceSource
}.

(** [globalStyles.clear()], [animationMap.clear()], [warnings.clear()] and
    [warned.clear()] *)
Definition registries_clear (s : State) : State :=
  {| globalStyles := ∅; animationMap := ∅; warnings := ∅; warned := ∅;
     styleMetaMap := styleMetaMap s; rem := rem s; vw := vw s; vh := vh s;
     colorScheme := colorScheme s; rootVariables := rootVariables s;
     rootDarkVariables := rootDarkVariables s;
     defaultVariables := defaultVariables s;
     defaultDarkVariables := defaultDarkVariables s;
     subscriptions := subscriptions s; nextArray := nextArray s;
     invoked := invoked s |}.

Definition __reset (env : Env) (config : option ResetConfig) : M unit :=
  let dimensions := default (Dimensions env) (config ≫= dimensions) in
  let appearance := default (Appearance env) (config ≫= appearance) in
  modify registries_clear;;
  modify (trackers_reset env dimensions appearance);;
  modify (set_rootVariables ∅);;
  modify (set_rootDarkVariables ∅);;
  modify (set_defaultVariables ∅);;
  modify (set_defaultDarkVariables ∅).

(** ** Variable resolution *)

(** [Appearance.getColorScheme() === "light"] *)
Definition isLight (scheme : option ColorSchemeName) : bool :=
  match scheme with Some Light => true | _ => false end.

(** [useVariables]; [$variables] is the value read from [VariableContext],
    [None] standing for [null]. *)
Definition useVariables (env : Env) (variables : option (gmap string JsValue))
    (s : State) : gmap string JsValue :=
  let light := isLight (getColorScheme (Appearance env)) in
  match variables with
  | None => if light then rootVariables s else rootDarkVariables s
  | Some inherited =>
      if light then spread inherited (defaultVariables s)
      else spread inherited (defaultDarkVariables s)
  end.

(** ** Programs over the public interface *)

Inductive Call :=
  | CallRegister (options : Options.t)
  | CallCreate (styles : list (string * ExtractedStyle.t))
  | CallSubscribe (subscription : Callback)
  | CallUnsubscribe (subscription : Callback)
  | CallReset (config : option ResetConfig).

Definition perform (env : Env) (c : Call) : M unit :=
  match c with
  | CallRegister o => register env o
  | CallCreate styles => create env styles;; mret tt
  | CallSubscribe cb => __subscribe cb;; mret tt
  | CallUnsubscribe cb => unsubscribe cb
  | CallReset config => __reset env config
  end.

Definition run (env : Env) (cs : list Call) : M unit := forOf cs (perform env).

(** The state when the module has just been loaded. *)
Definition initial (env : Env) : State :=
  {| globalStyles := ∅; animationMap := ∅; warnings := ∅; warned := ∅;
     styleMetaMap := ∅; rem := remDefault env;
     vw := window_width (Dimensions env); vh := window_height (Dimensions env);
     colorScheme := getColorScheme (Appearance env);
     rootVariables := ∅; rootDarkVariables := ∅; defaultVariables := ∅;
     defaultDarkVariables := ∅; subscriptions := []; nextArray := 0%nat;
     invoked := [] |}.

(** ** Vocabulary of the statements *)

(** The fields of a descriptor that make it dynamic. *)
Inductive Field :=
  | FIsDynamic | FVariables | FMedia | FPseudoClasses | FAnimations
  | FContainer | FContainerQuery | FTransition | FRequiresLayout | FProp.

Definition dynamicFields : list Field :=
  [FIsDynamic; FVariables; FMedia; FPseudoClasses; FAnimations;
   FContainer; FContainerQuery; FTransition; FRequiresLayout; FProp].

Definition present {A} (o : option A) : bool :=
  match o with Some _ => true | None => false end.

Definition nonEmpty {A} (o : option (list A)) : bool :=
  match o with Some (_ :: _) => true | _ => false end.

(** An optional leaf is there and truthy. *)
Definition truthyLeaf (o : option JsValue) : bool :=
  match o with Some v => truthyValue v | None => false end.

(** A field is set on a descriptor when the tagger's test of it succeeds:
    flags when they are true, [media] when it has an element, the leaves
    [pseudoClasses], [transition] and [prop] when they are truthy, the
    object-valued fields when they are there. *)
Definition fieldSet (d : ExtractedStyle.t) (f : Field) : bool :=
  match f with
  | FIsDynamic => truthy (ExtractedStyle.isDynamic d)
  | FVariables => present (ExtractedStyle.variables d)
  | FMedia => nonEmpty (ExtractedStyle.media d)
  | FPseudoClasses => truthyLeaf (ExtractedStyle.pseudoClasses d)
  | FAnimations => present (ExtractedStyle.animations d)
  | FContainer => present (ExtractedStyle.container d)
  | FContainerQuery => present (ExtractedStyle.containerQuery d)
  | FTransition => truthyLeaf (ExtractedStyle.transition d)
  | FRequiresLayout => truthy (ExtractedStyle.requiresLayout d)
  | FProp => truthyLeaf (ExtractedStyle.prop d)
  end.

(** At least one dynamic-relevant field is set. *)
Definition dynamic (d : ExtractedStyle.t) : bool :=
  existsb (fieldSet d) dynamicFields.

(** A metadata record contains a field.  No statement of the tagger ever
    writes an [isDynamic] property on it. *)
Definition fieldKept (m : StyleMeta.t) (f : Field) : bool :=
  match f with
  | FIsDynamic => false
  | FVariables => present (StyleMeta.variables m)
  | FMedia => present (StyleMeta.media m)
  | FPseudoClasses => present (StyleMeta.pseudoClasses m)
  | FAnimations => present (StyleMeta.animations m)
  | FContainer => present (StyleMeta.container m)
  | FContainerQuery => present (StyleMeta.containerQuery m)
  | FTransition => present (StyleMeta.transition m)
  | FRequiresLayout => present (StyleMeta.requiresLayout m)
  | FProp => present (StyleMeta.prop m)
  end.

(** The animation lookup warrants a layout pass. *)
Definition derivedLayout (am : gmap string ExtractedAnimation.t)
    (d : ExtractedStyle.t) : bool :=
  match ExtractedStyle.animations d with
  | Some a => animationsRequireLayout am a
  | None => false
  end.

(** [type] defaulted to ["normal"]. *)
Definition normalised (c : PartialContainer.t) : ExtractedContainer.t :=
  {| ExtractedContainer.names := PartialContainer.names c;
     ExtractedContainer.type :=
       match PartialContainer.type c with Some t => t | None => "normal" end |}.

(** The record a dynamic descriptor is expected to get, field by field. *)
Definition metaOf (am : gmap string ExtractedAnimation.t)
    (d : ExtractedStyle.t) : StyleMeta.t :=
  {| StyleMeta.variables := ExtractedStyle.variables d;
     StyleMeta.media :=
       if nonEmpty (ExtractedStyle.media d) then ExtractedStyle.media d else None;
     StyleMeta.pseudoClasses :=
       if truthyLeaf (ExtractedStyle.pseudoClasses d)
       then ExtractedStyle.pseudoClasses d else None;
     StyleMeta.animations := ExtractedStyle.animations d;
     StyleMeta.requiresLayout :=
       if truthy (ExtractedStyle.requiresLayout d) || derivedLayout am d
       then Some true else None;
     StyleMeta.container := normalised <$> ExtractedStyle.container d;
     StyleMeta.containerQuery := ExtractedStyle.containerQuery d;
     StyleMeta.transition :=
       if truthyLeaf (ExtractedStyle.transition d)
       then ExtractedStyle.transition d else None;
     StyleMeta.prop :=
       if truthyLeaf (ExtractedStyle.prop d) then ExtractedStyle.prop d else None |}.

(** The table lookup behind [styleMetaMap.has]. *)
Definition hasEntry (tbl : gmap ObjRef StyleMeta.t) (key : ObjRef) : bool :=
  bool_decide (is_Some (tbl !! key)).

(** The side table once the elements of an array have been tagged in order. *)
Definition elementsTable (am : gmap string ExtractedAnimation.t)
    (ds : list ExtractedStyle.t) (tbl : gmap ObjRef StyleMeta.t)
    : gmap ObjRef StyleMeta.t :=
  foldl (fun t d =>
           if dynamic d
           then <[StyleObj (ExtractedStyle.style d) := metaOf am d]> t
           else t)
        tbl ds.

(** The warnings registry once a batch of descriptors has been tagged. *)
Definition warningsAfter (entries : list (string * ExtractedStyle.t))
    (w : gmap string (list JsValue)) : gmap string (list JsValue) :=
  foldl (fun w '(name, d) =>
           match ExtractedStyle.warnings d with
           | Some x => <[name := x]> w
           | None => w
           end)
        w entries.

(** Everything tagging may not touch: the state with the side table, the
    warnings registry and the allocation counter blanked out. *)
Definition untagged (s : State) : State :=
  set_styleMetaMap ∅ (set_warnings ∅ (set_nextArray 0%nat s)).

(** Array addresses not handed out yet have no entry in the side table. *)
Definition fresh_arrays (s : State) : Prop :=
  forall a, (nextArray s <= a)%nat -> styleMetaMap s !! ArrayObj a = None.


(** What neither tagging nor the two registries filled by [register] may
    touch. *)
Definition ambient (s : State) : State :=
  set_animationMap ∅ (set_globalStyles ∅ (untagged s)).

(** The subscription set and the log of invocations. *)
Definition bus (s : State) : list Callback * list Callback :=
  (subscriptions s, invoked s).

(** The effect of one call on the subscription set and the log. *)
Definition busStep (c : Call) (b : list Callback * list Callback)
    : list Callback * list Callback :=
  match c with
  | CallRegister _ | CallCreate _ => (fst b, snd b ++ fst b)
  | CallSubscribe cb => (jsSet_add cb (fst b), snd b)
  | CallUnsubscribe cb => (jsSet_delete cb (fst b), snd b)
  | CallReset _ => b
  end.

(** A program subscribes the callback (again). *)
Definition resubscribes (cb : Callback) (cs : list Call) : bool :=
  existsb (fun c => match c with
                    | CallSubscribe x => bool_decide (x = cb)
                    | _ => false
                    end) cs.

(** The mapping [create] hands back: every name bound to the payload of its
    descriptor. *)
Definition namedPayloads (entries : list (string * ExtractedStyle.t))
    : list (string * StyleProp) :=
  map (fun '(name, d) => (name, PStyle (ExtractedStyle.style d))) entries.

(** The animation map once a batch of keyframes has been installed. *)
Definition keyframesAfter (ks : list (string * ExtractedAnimation.t))
    (am : gmap string ExtractedAnimation.t) : gmap string ExtractedAnimation.t :=
  foldl (fun m '(name, k) => <[name := k]> m) am ks.

(** Variable resolution as the specification words it: the inherited scope
    ([None] for the root sentinel) and the appearance are inputs. *)
Definition resolveVariables (inherited : option (gmap string JsValue))
    (appearance : option ColorSchemeName) (s : State) : gmap string JsValue :=
  match inherited, appearance with
  | None, Some Light => rootVariables s
  | None, _ => rootDarkVariables s
  | Some scope, Some Light => defaultVariables s ∪ scope
  | Some scope, _ => defaultDarkVariables s ∪ scope
  end.

(** The four assignments to the variable scopes, as one state update. *)
Definition assignScopes (o : Options.t) (s : State) : State :=
  let s := match Options.defaultVariables o with
           | Some dv => set_defaultVariables dv s
           | None => s
           end in
  let s := match Options.defaultDarkVariables o with
           | Some ddv =>
               set_defaultDarkVariables
                 (spread (orEmpty (Options.defaultVariables o)) ddv) s
           | None => s
           end in
  let s := match Options.rootVariables o with
           | Some rv => set_rootVariables (spread rv (defaultVariables s)) s
           | None => s
           end in
  match Options.rootDarkVariables o with
  | Some rdv =>
      set_rootDarkVariables
        (spread (spread (orEmpty (Options.rootVariables o)) rdv)
                (defaultDarkVariables s)) s
  | None => s
  end.

Definition installPhase (env : Env) (o : Options.t) : M unit :=
  match Options.keyframes o with
  | Some ks => forOf ks (fun '(name, keyframes) => animationMap_set name keyframes)
  | None => mret tt
  end;;
  match Options.declarations o with
  | Some ds =>
      forOf ds (fun '(name, styles) =>
        v ← tagStyles env name styles; globalStyles_set name v)
  | None => mret tt
  end.

(** ** Concrete inputs *)

(** A development build on a phone-sized window. *)
Definition devEnv : Env :=
  {| NODE_ENV := Some "development";
     Dimensions := {| window_width := 390; window_height := 844 |};
     Appearance := {| getColorScheme := Some Light |};
     remDefault := 14 |}.

(** The environment with another answer from [Appearance.getColorScheme]. *)
Definition withAppearance (scheme : option ColorSchemeName) (env : Env) : Env :=
  {| NODE_ENV := NODE_ENV env; Dimensions := Dimensions env;
     Appearance := {| getColorScheme := scheme |};
     remDefault := remDefault env |}.

(** [{ style, isDynamic: true }] *)
Definition flagged (a : nat) : ExtractedStyle.t :=
  {| ExtractedStyle.style := a; ExtractedStyle.isDynamic := Some true;
     ExtractedStyle.variables := None; ExtractedStyle.media := None;
     ExtractedStyle.pseudoClasses := None; ExtractedStyle.animations := None;
     ExtractedStyle.container := None; ExtractedStyle.containerQuery := None;
     ExtractedStyle.transition := None; ExtractedStyle.requiresLayout := None;
     ExtractedStyle.prop := None; ExtractedStyle.warnings := None |}.

(** [{ style, animations: { name: [{ type: "custom", value: "spin" }] } }] *)
Definition spinning (a : nat) : ExtractedStyle.t :=
  {| ExtractedStyle.style := a; ExtractedStyle.isDynamic := None;
     ExtractedStyle.variables := None; ExtractedStyle.media := None;
     ExtractedStyle.pseudoClasses := None;
     ExtractedStyle.animations :=
       Some {| ExtractedAnimations.name :=
                 Some [ {| AnimationName.type := "custom";
                           AnimationName.value := Some "spin" |} ];
               ExtractedAnimations.rest := [] |};
     ExtractedStyle.container := None; ExtractedStyle.containerQuery := None;
     ExtractedStyle.transition := None; ExtractedStyle.requiresLayout := None;
     ExtractedStyle.prop := None; ExtractedStyle.warnings := None |}.

(** [{ keyframes: { spin: { frames, requiresLayout: true } } }] *)
Definition spinKeyframes (frames : list JsValue) : Options.t :=
  {| Options.keyframes :=
       Some [("spin", {| ExtractedAnimation.frames := frames;
                         ExtractedAnimation.requiresLayout := true |})];
     Options.declarations := None; Options.defaultVariables := None;
     Options.defaultDarkVariables := None; Options.rootVariables := None;
     Options.rootDarkVariables := None |}.

(** [{ defaultVariables: { a: 1 }, defaultDarkVariables: { b: 2 } }] *)
Definition defaultsAB : Options.t :=
  {| Options.keyframes := None; Options.declarations := None;
     Options.defaultVariables := Some {[ "a" := JNum 1 ]};
     Options.defaultDarkVariables := Some {[ "b" := JNum 2 ]};
     Options.rootVariables := None; Options.rootDarkVariables := None |}.

(** [{ rootVariables: { c: 3 } }] *)
Definition rootC : Options.t :=
  {| Options.keyframes := None; Options.declarations := None;
     Options.defaultVariables := None; Options.defaultDarkVariables := None;
     Options.rootVariables := Some {[ "c" := JNum 3 ]};
     Options.rootDarkVariables := None |}.

(** Some referenced name resolves in the animation map to a definition that
    requires layout; a reference of type ["none"] refers to the name
    ["none"], any other reference to its [value]. *)
Definition resolvesToLayout (am : gmap string ExtractedAnimation.t)
    (a : ExtractedAnimations.t) : Prop :=
  exists ns n def,
    ExtractedAnimations.name a = Some ns /\ n ∈ ns /\
    ((AnimationName.type n = "none" /\ am !! "none" = Some def) \/
     (AnimationName.type n <> "none" /\
      exists v, AnimationName.value n = Some v /\ am !! v = Some def)) /\
    ExtractedAnimation.requiresLayout def = true.

(** The entry mirrors the input: it contains a field exactly when the field
    is set on the descriptor, a derived [requiresLayout] apart. *)
Definition mirrorsInput (am : gmap string ExtractedAnimation.t)
    (d : ExtractedStyle.t) (m : StyleMeta.t) : Prop :=
  forall f,
    fieldKept m f =
    fieldSet d f || match f with
                    | FRequiresLayout => derivedLayout am d
                    | _ => false
                    end.

(** The state once [{ style: #1, isDynamic: true }] has been tagged. *)
Definition taggedOnce : State :=
  exec (tagStyles devEnv "a" (One (flagged 1))) (initial devEnv).
(** ** Vocabulary for the registries *)

(** The value a name ends up with when the entries of an object are written
    one after the other: the last one under that name. *)
Fixpoint lastBinding {A} (name : string) (entries : list (string * A)) : option A :=
  match entries with
  | [] => None
  | (n, x) :: rest =>
      match lastBinding name rest with
      | Some y => Some y
      | None => if decide (n = name) then Some x else None
      end
  end.

(** The warnings of the last element of an array that carries any. *)
Fixpoint lastWarnings (ds : list ExtractedStyle.t) : option (list JsValue) :=
  match ds with
  | [] => None
  | d :: rest =>
      match lastWarnings rest with
      | Some w => Some w
      | None => ExtractedStyle.warnings d
      end
  end.

(** The side table and the allocation counter after one declaration has been
    tagged against a fixed animation map. *)
Definition tagTable (am : gmap string ExtractedAnimation.t)
    (acc : gmap ObjRef StyleMeta.t * nat) (x : StyleInput)
    : gmap ObjRef StyleMeta.t * nat :=
  match x with
  | One d =>
      (if dynamic d
       then <[StyleObj (ExtractedStyle.style d) := metaOf am d]> (fst acc)
       else fst acc,
       snd acc)
  | Many _ ds =>
      let tbl := elementsTable am ds (fst acc) in
      (if existsb (fun d => dynamic d ||
                     hasEntry (fst acc) (StyleObj (ExtractedStyle.style d))) ds
       then <[ArrayObj (snd acc) := StyleMeta.empty]> tbl
       else tbl,
       S (snd acc))
  end.

(** [{ declarations }] with every descriptor on its own. *)
Definition declarationsOnly (styles : list (string * ExtractedStyle.t)) : Options.t :=
  {| Options.keyframes := None;
     Options.declarations := Some (map (fun '(name, d) => (name, One d)) styles);
     Options.defaultVariables := None; Options.defaultDarkVariables := None;
     Options.rootVariables := None; Options.rootDarkVariables := None |}.

(** The entries of an optional object; none when it is absent. *)
Definition entriesOf {A} (o : option (list (string * A))) : list (string * A) :=
  match o with Some l => l | None => [] end.

(** The loop of [register] over [Object.entries(options.declarations)]. *)
Definition declarationsLoop (env : Env) (ds : list (string * StyleInput)) : M unit :=
  forOf ds (fun '(name, styles) =>
    v ← tagStyles env name styles; globalStyles_set name v).

(** A production build. *)
Definition prodEnv : Env :=
  {| NODE_ENV := Some "production";
     Dimensions := {| window_width := 390; window_height := 844 |};
     Appearance := {| getColorScheme := Some Dark |};
     remDefault := 14 |}.

(** [{ style, warnings: [w] }] *)
Definition warning (a : nat) (w : JsValue) : ExtractedStyle.t :=
  {| ExtractedStyle.style := a; ExtractedStyle.isDynamic := None;
     ExtractedStyle.variables := None; ExtractedStyle.media := None;
     ExtractedStyle.pseudoClasses := None; ExtractedStyle.animations := None;
     ExtractedStyle.container := None; ExtractedStyle.containerQuery := None;
     ExtractedStyle.transition := None; ExtractedStyle.requiresLayout := None;
     ExtractedStyle.prop := None; ExtractedStyle.warnings := Some [w] |}.

(** ** Reasoning about the monad *)

Ltac unfold_M :=
  unfold exec, eval, when, gets, modify, warnings_set, styleMetaMap_set,
    styleMetaMap_has, newArray, mbind, M_bind, mret, M_ret in *.

Lemma exec_bind {A B} (c : M A) (f : A -> M B) (s : State) :
  exec (x ← c; f x) s = exec (f (eval c s)) (exec c s).
Proof. unfold_M. destruct (c s); reflexivity. Qed.

Lemma eval_bind {A B} (c : M A) (f : A -> M B) (s : State) :
  eval (x ← c; f x) s = eval (f (eval c s)) (exec c s).
Proof. unfold_M. destruct (c s); reflexivity. Qed.

Lemma exec_ret {A} (x : A) (s : State) : exec (mret x) s = s.
Proof. reflexivity. Qed.

Lemma exec_modify (f : State -> State) (s : State) : exec (modify f) s = f s.
Proof. reflexivity. Qed.


(** ** The single-descriptor branch *)

Lemma buildMeta_spec am d :
  buildMeta am d = {| hasMeta := dynamic d; meta := metaOf am d |}.
Proof.
  destruct d as [st dy va me ps an co cq tr rl pr wa].
  unfold buildMeta, metaOf, dynamic, dynamicFields, derivedLayout,
    tag_isDynamic, tag_variables, tag_media, tag_pseudoClasses, tag_animations,
    tag_container, tag_containerQuery, tag_transition, tag_requiresLayout, tag_prop.
  cbn [existsb fieldSet
       ExtractedStyle.isDynamic ExtractedStyle.variables ExtractedStyle.media
       ExtractedStyle.pseudoClasses ExtractedStyle.animations ExtractedStyle.container
       ExtractedStyle.containerQuery ExtractedStyle.transition
       ExtractedStyle.requiresLayout ExtractedStyle.prop].
  destruct ps as [ps|], tr as [tr|], pr as [pr|]; cbn [truthyLeaf];
    repeat match goal with
           | |- context [truthyValue ?v] => destruct (truthyValue v)
           end;
    destruct dy as [[]|], va, me as [[]|], an as [an|], co, cq, rl as [[]|];
    try destruct (animationsRequireLayout am an); reflexivity.
Qed.

Lemma tagStyle_eval env name d s :
  eval (tagStyle env name d) s = ExtractedStyle.style d.
Proof.
  unfold tagStyle. unfold_M.
  destruct (notProduction env), (ExtractedStyle.warnings d), (hasMeta _); reflexivity.
Qed.

Lemma tagStyle_table env name d s :
  styleMetaMap (exec (tagStyle env name d) s) =
  if dynamic d
  then <[StyleObj (ExtractedStyle.style d) := metaOf (animationMap s) d]> (styleMetaMap s)
  else styleMetaMap s.
Proof.
  unfold tagStyle. unfold_M. rewrite buildMeta_spec. cbn [hasMeta meta].
  destruct (notProduction env), (ExtractedStyle.warnings d), (dynamic d); reflexivity.
Qed.

Lemma tagStyle_warnings env name d s :
  warnings (exec (tagStyle env name d) s) =
  if notProduction env
  then match ExtractedStyle.warnings d with
       | Some w => <[name := w]> (warnings s)
       | None => warnings s
       end
  else warnings s.
Proof.
  unfold tagStyle. unfold_M.
  destruct (notProduction env), (ExtractedStyle.warnings d), (hasMeta _); reflexivity.
Qed.

Lemma tagStyle_nextArray env name d s :
  nextArray (exec (tagStyle env name d) s) = nextArray s.
Proof.
  unfold tagStyle. unfold_M.
  destruct (notProduction env), (ExtractedStyle.warnings d), (hasMeta _); reflexivity.
Qed.

Lemma tagStyle_untagged env name d s :
  untagged (exec (tagStyle env name d) s) = untagged s.
Proof.
  unfold tagStyle. unfold_M.
  destruct (notProduction env), (ExtractedStyle.warnings d), (hasMeta _); reflexivity.
Qed.

(** ** The array branch *)

Lemma hasEntry_insert tbl k k' m :
  hasEntry (<[k := m]> tbl) k' = bool_decide (k = k') || hasEntry tbl k'.
Proof.
  unfold hasEntry. rewrite lookup_insert.
  destruct (decide (k = k')) as [->|Hne].
  - rewrite (bool_decide_true (k' = k')) by reflexivity.
    apply bool_decide_true. eauto.
  - rewrite (bool_decide_false (k = k')) by assumption. reflexivity.
Qed.

Lemma hasEntry_insert_same tbl k m : hasEntry (<[k := m]> tbl) k = true.
Proof.
  rewrite hasEntry_insert. rewrite (bool_decide_true (k = k)) by reflexivity.
  reflexivity.
Qed.

Lemma mapTag_exec_step env name d ds b s :
  exec (mapTag env name (d :: ds) b) s =
  exec (mapTag env name ds
          (b || hasEntry (styleMetaMap (exec (tagStyle env name d) s))
                         (StyleObj (ExtractedStyle.style d))))
       (exec (tagStyle env name d) s).
Proof.
  cbn [mapTag]. unfold_M. destruct (tagStyle env name d s) as [v s1]. cbn.
  destruct (mapTag env name ds _ s1) as [r s2]. reflexivity.
Qed.

Lemma mapTag_eval_step env name d ds b s :
  eval (mapTag env name (d :: ds) b) s =
  let r := eval (mapTag env name ds
                   (b || hasEntry (styleMetaMap (exec (tagStyle env name d) s))
                                  (StyleObj (ExtractedStyle.style d))))
                (exec (tagStyle env name d) s) in
  (eval (tagStyle env name d) s :: fst r, snd r).
Proof.
  cbn [mapTag]. unfold_M. destruct (tagStyle env name d s) as [v s1]. cbn.
  destruct (mapTag env name ds _ s1) as [r s2]. reflexivity.
Qed.

Lemma mapTag_untagged env name ds b s :
  untagged (exec (mapTag env name ds b) s) = untagged s.
Proof.
  revert b s; induction ds as [|d ds IH]; intros b s; [reflexivity|].
  rewrite mapTag_exec_step, IH. apply tagStyle_untagged.
Qed.

Lemma mapTag_nextArray env name ds b s :
  nextArray (exec (mapTag env name ds b) s) = nextArray s.
Proof.
  revert b s; induction ds as [|d ds IH]; intros b s; [reflexivity|].
  rewrite mapTag_exec_step, IH. apply tagStyle_nextArray.
Qed.

Lemma untagged_animationMap s s' :
  untagged s = untagged s' -> animationMap s = animationMap s'.
Proof. intros H. exact (f_equal animationMap H). Qed.

Lemma mapTag_table env name ds b s :
  styleMetaMap (exec (mapTag env name ds b) s) =
  elementsTable (animationMap s) ds (styleMetaMap s).
Proof.
  revert b s; induction ds as [|d ds IH]; intros b s; [reflexivity|].
  rewrite mapTag_exec_step, IH. cbn [elementsTable foldl].
  rewrite tagStyle_table.
  rewrite (untagged_animationMap _ _ (tagStyle_untagged env name d s)).
  reflexivity.
Qed.

Lemma mapTag_values env name ds b s :
  fst (eval (mapTag env name ds b) s) = map ExtractedStyle.style ds.
Proof.
  revert b s; induction ds as [|d ds IH]; intros b s; [reflexivity|].
  rewrite mapTag_eval_step. cbv zeta. cbn [fst map]. rewrite IH, tagStyle_eval. reflexivity.
Qed.

Lemma mapTag_didTag env name ds b s :
  snd (eval (mapTag env name ds b) s) =
  b || existsb (fun d => dynamic d ||
                  hasEntry (styleMetaMap s) (StyleObj (ExtractedStyle.style d))) ds.
Proof.
  revert b s; induction ds as [|d ds IH]; intros b s.
  - cbn. rewrite orb_false_r. reflexivity.
  - rewrite mapTag_eval_step. cbv zeta. cbn [snd existsb]. rewrite IH, tagStyle_table.
    destruct (dynamic d) eqn:Hd.
    + rewrite hasEntry_insert_same. cbn. rewrite !orb_true_r. reflexivity.
    + cbn. rewrite orb_assoc. reflexivity.
Qed.

Lemma elementsTable_cons am d ds tbl :
  elementsTable am (d :: ds) tbl =
  elementsTable am ds
    (if dynamic d
     then <[StyleObj (ExtractedStyle.style d) := metaOf am d]> tbl
     else tbl).
Proof. reflexivity. Qed.

Lemma elementsTable_array am ds tbl a :
  elementsTable am ds tbl !! ArrayObj a = tbl !! ArrayObj a.
Proof.
  revert tbl; induction ds as [|d ds IH]; intros tbl; [reflexivity|].
  rewrite elementsTable_cons, IH.
  destruct (dynamic d); [|reflexivity].
  apply lookup_insert_ne. discriminate.
Qed.

Lemma hasEntry_elementsTable_key am ds tbl k :
  hasEntry (elementsTable am ds tbl) k =
  hasEntry tbl k ||
  existsb (fun e => dynamic e && bool_decide (StyleObj (ExtractedStyle.style e) = k)) ds.
Proof.
  revert tbl; induction ds as [|d ds IH]; intros tbl.
  - cbn. rewrite orb_false_r. reflexivity.
  - rewrite elementsTable_cons, IH. cbn [existsb].
    destruct (dynamic d); cbn [andb orb]; [|reflexivity].
    rewrite hasEntry_insert.
    destruct (bool_decide _), (hasEntry tbl k); reflexivity.
Qed.

Lemma hasEntry_elementsTable am ds tbl :
  existsb (fun d => hasEntry (elementsTable am ds tbl)
                      (StyleObj (ExtractedStyle.style d))) ds =
  existsb (fun d => dynamic d ||
                    hasEntry tbl (StyleObj (ExtractedStyle.style d))) ds.
Proof.
  apply Bool.eq_iff_eq_true. rewrite !existsb_exists. split.
  - intros (d & Hin & Hd). rewrite hasEntry_elementsTable_key in Hd.
    apply orb_true_iff in Hd as [Hd|Hd].
    + exists d. rewrite Hd, orb_true_r. auto.
    + apply existsb_exists in Hd as (e & Hine & He).
      apply andb_true_iff in He as [He _].
      exists e. rewrite He. auto.
  - intros (d & Hin & Hd). exists d. split; [exact Hin|].
    rewrite hasEntry_elementsTable_key.
    apply orb_true_iff in Hd as [Hd|Hd].
    + apply orb_true_iff. right. apply existsb_exists.
      exists d. rewrite Hd, bool_decide_true by reflexivity. auto.
    + rewrite Hd. reflexivity.
Qed.

Lemma tagStyles_many_eval env name self ds s :
  eval (tagStyles env name (Many self ds)) s =
  PArray (nextArray s) (map ExtractedStyle.style ds).
Proof.
  cbn [tagStyles]. rewrite !eval_bind.
  change (eval newArray s) with (nextArray s).
  set (s0 := exec newArray s).
  destruct (snd (eval (mapTag env name ds false) s0)); cbn;
    rewrite mapTag_values; reflexivity.
Qed.

Lemma tagStyles_many_exec env name self ds s :
  exec (tagStyles env name (Many self ds)) s =
  let s1 := exec (mapTag env name ds false) (set_nextArray (S (nextArray s)) s) in
  if existsb (fun d => dynamic d ||
                hasEntry (styleMetaMap s) (StyleObj (ExtractedStyle.style d))) ds
  then set_styleMetaMap (<[ArrayObj (nextArray s) := StyleMeta.empty]> (styleMetaMap s1)) s1
  else s1.
Proof.
  cbn [tagStyles]. rewrite !exec_bind.
  change (eval newArray s) with (nextArray s).
  change (exec newArray s) with (set_nextArray (S (nextArray s)) s).
  rewrite mapTag_didTag. cbn [orb set_nextArray styleMetaMap].
  cbv zeta. destruct (existsb _ ds); reflexivity.
Qed.

Lemma tagStyles_many_table env name self ds s :
  styleMetaMap (exec (tagStyles env name (Many self ds)) s) =
  let tbl := elementsTable (animationMap s) ds (styleMetaMap s) in
  if existsb (fun d => dynamic d ||
                hasEntry (styleMetaMap s) (StyleObj (ExtractedStyle.style d))) ds
  then <[ArrayObj (nextArray s) := StyleMeta.empty]> tbl
  else tbl.
Proof.
  rewrite tagStyles_many_exec. cbv zeta.
  destruct (existsb _ ds); cbn [set_styleMetaMap styleMetaMap];
    rewrite mapTag_table; reflexivity.
Qed.

Lemma tagStyles_one_exec env name d s :
  exec (tagStyles env name (One d)) s = exec (tagStyle env name d) s.
Proof. cbn [tagStyles]. rewrite exec_bind. reflexivity. Qed.

Lemma tagStyles_one_eval env name d s :
  eval (tagStyles env name (One d)) s = PStyle (ExtractedStyle.style d).
Proof. cbn [tagStyles]. rewrite eval_bind. cbn. rewrite tagStyle_eval. reflexivity. Qed.

Lemma tagStyles_untagged env name styles s :
  untagged (exec (tagStyles env name styles) s) = untagged s.
Proof.
  destruct styles as [d|self ds].
  - rewrite tagStyles_one_exec. apply tagStyle_untagged.
  - rewrite tagStyles_many_exec. cbv zeta.
    destruct (existsb _ ds).
    + transitivity (untagged (exec (mapTag env name ds false)
                                (set_nextArray (S (nextArray s)) s))).
      * reflexivity.
      * rewrite mapTag_untagged. reflexivity.
    + rewrite mapTag_untagged. reflexivity.
Qed.

Lemma tagStyles_nextArray env name styles s :
  nextArray (exec (tagStyles env name styles) s) =
  match styles with
  | One _ => nextArray s
  | Many _ _ => S (nextArray s)
  end.
Proof.
  destruct styles as [d|self ds].
  - rewrite tagStyles_one_exec. apply tagStyle_nextArray.
  - rewrite tagStyles_many_exec. cbv zeta.
    destruct (existsb _ ds); cbn [set_styleMetaMap nextArray];
      rewrite mapTag_nextArray; reflexivity.
Qed.

Lemma tagStyles_fresh_arrays env name styles s :
  fresh_arrays s -> fresh_arrays (exec (tagStyles env name styles) s).
Proof.
  intros Hs a Ha. rewrite tagStyles_nextArray in Ha.
  destruct styles as [d|self ds].
  - rewrite tagStyles_one_exec, tagStyle_table.
    destruct (dynamic d); [rewrite lookup_insert_ne by discriminate|]; apply Hs, Ha.
  - rewrite tagStyles_many_table. cbv zeta.
    destruct (existsb _ ds).
    + rewrite lookup_insert_ne by (intros [= E]; lia).
      rewrite elementsTable_array. apply Hs. lia.
    + rewrite elementsTable_array. apply Hs. lia.
Qed.

(** ** Broadcasting *)

Lemma set_invoked_same s : set_invoked (invoked s) s = s.
Proof. destruct s; reflexivity. Qed.

Lemma set_subscriptions_same s : set_subscriptions (subscriptions s) s = s.
Proof. destruct s; reflexivity. Qed.

Lemma forOf_call l s :
  exec (forOf l call) s = set_invoked (invoked s ++ l) s.
Proof.
  revert s; induction l as [|cb l IH]; intros s.
  - cbn [forOf]. rewrite exec_ret, app_nil_r, set_invoked_same. reflexivity.
  - cbn [forOf]. rewrite exec_bind, IH. unfold call. rewrite exec_modify.
    cbn. rewrite <- app_assoc. reflexivity.
Qed.

Lemma broadcast_exec s :
  exec broadcast s = set_invoked (invoked s ++ subscriptions s) s.
Proof. unfold broadcast. rewrite exec_bind. apply forOf_call. Qed.

(** ** The loops of [register] *)

Lemma keyframes_loop_exec ks s :
  exec (forOf ks (fun '(name, keyframes) => animationMap_set name keyframes)) s =
  set_animationMap (keyframesAfter ks (animationMap s)) s.
Proof.
  revert s; induction ks as [|[n k] ks IH]; intros s.
  - destruct s; reflexivity.
  - cbn [forOf]. rewrite exec_bind, IH. reflexivity.
Qed.

Lemma declarations_loop_ambient env ds s :
  ambient (exec (forOf ds (fun '(name, styles) =>
                   v ← tagStyles env name styles; globalStyles_set name v)) s) =
  ambient s.
Proof.
  revert s; induction ds as [|[n x] ds IH]; intros s; [reflexivity|].
  cbn [forOf]. rewrite exec_bind, IH, exec_bind.
  unfold globalStyles_set. rewrite exec_modify.
  transitivity (ambient (exec (tagStyles env n x) s)); [reflexivity|].
  unfold ambient. rewrite tagStyles_untagged. reflexivity.
Qed.

Lemma declarations_loop_animationMap env ds s :
  animationMap (exec (forOf ds (fun '(name, styles) =>
                   v ← tagStyles env name styles; globalStyles_set name v)) s) =
  animationMap s.
Proof.
  revert s; induction ds as [|[n x] ds IH]; intros s; [reflexivity|].
  cbn [forOf]. rewrite exec_bind, IH, exec_bind.
  unfold globalStyles_set. rewrite exec_modify. cbn.
  exact (f_equal animationMap (tagStyles_untagged env n x s)).
Qed.

Lemma fresh_arrays_ext s s' :
  styleMetaMap s = styleMetaMap s' -> nextArray s = nextArray s' ->
  fresh_arrays s -> fresh_arrays s'.
Proof. unfold fresh_arrays. intros <- <-. auto. Qed.

Lemma declarations_loop_fresh env ds s :
  fresh_arrays s ->
  fresh_arrays (exec (forOf ds (fun '(name, styles) =>
                   v ← tagStyles env name styles; globalStyles_set name v)) s).
Proof.
  revert s; induction ds as [|[n x] ds IH]; intros s Hs; [exact Hs|].
  cbn [forOf]. rewrite exec_bind. apply IH. rewrite exec_bind.
  unfold globalStyles_set. rewrite exec_modify.
  eapply fresh_arrays_ext; [| |apply (tagStyles_fresh_arrays env n x s Hs)];
    reflexivity.
Qed.

Lemma register_exec env o s :
  exec (register env o) s =
  exec broadcast (assignScopes o (exec (installPhase env o) s)).
Proof.
  unfold register, installPhase, assignScopes. rewrite !exec_bind.
  destruct o as [ks ds dv ddv rv rdv]. cbn [Options.keyframes Options.declarations
    Options.defaultVariables Options.defaultDarkVariables Options.rootVariables
    Options.rootDarkVariables].
  destruct dv, ddv, rv, rdv; reflexivity.
Qed.

Lemma installPhase_ambient env o s :
  ambient (exec (installPhase env o) s) = ambient s.
Proof.
  unfold installPhase. rewrite exec_bind.
  assert (Hk : ambient (exec match Options.keyframes o with
                             | Some ks => forOf ks (fun '(name, keyframes) =>
                                            animationMap_set name keyframes)
                             | None => mret tt
                             end s) = ambient s).
  { destruct (Options.keyframes o); [rewrite keyframes_loop_exec|]; reflexivity. }
  destruct (Options.declarations o).
  - rewrite declarations_loop_ambient. exact Hk.
  - exact Hk.
Qed.

Lemma installPhase_animationMap env o s :
  animationMap (exec (installPhase env o) s) =
  match Options.keyframes o with
  | Some ks => keyframesAfter ks (animationMap s)
  | None => animationMap s
  end.
Proof.
  unfold installPhase. rewrite exec_bind.
  assert (Hd : forall s0,
    animationMap (exec match Options.declarations o with
                       | Some ds => forOf ds (fun '(name, styles) =>
                           v ← tagStyles env name styles; globalStyles_set name v)
                       | None => mret tt
                       end s0) = animationMap s0).
  { intros s0. destruct (Options.declarations o);
      [apply declarations_loop_animationMap|reflexivity]. }
  rewrite Hd. destruct (Options.keyframes o); [rewrite keyframes_loop_exec|];
    reflexivity.
Qed.

Lemma installPhase_fresh env o s :
  fresh_arrays s -> fresh_arrays (exec (installPhase env o) s).
Proof.
  intros Hs. unfold installPhase. rewrite exec_bind.
  assert (Hk : fresh_arrays (exec match Options.keyframes o with
                             | Some ks => forOf ks (fun '(name, keyframes) =>
                                            animationMap_set name keyframes)
                             | None => mret tt
                             end s)).
  { destruct (Options.keyframes o); [rewrite keyframes_loop_exec|]; exact Hs. }
  destruct (Options.declarations o); [apply declarations_loop_fresh|]; exact Hk.
Qed.

Lemma assignScopes_outside o s :
  set_defaultVariables ∅ (set_defaultDarkVariables ∅
    (set_rootVariables ∅ (set_rootDarkVariables ∅ (assignScopes o s)))) =
  set_defaultVariables ∅ (set_defaultDarkVariables ∅
    (set_rootVariables ∅ (set_rootDarkVariables ∅ s))).
Proof.
  unfold assignScopes.
  destruct (Options.defaultVariables o), (Options.defaultDarkVariables o),
    (Options.rootVariables o), (Options.rootDarkVariables o); reflexivity.
Qed.

(** ** [create] *)

Lemma createLoop_exec_cons env n d rest acc s :
  exec (createLoop env ((n, d) :: rest) acc) s =
  exec (createLoop env rest (<[n := PStyle (ExtractedStyle.style d)]> acc))
       (exec (tagStyle env n d) s).
Proof.
  cbn [createLoop]. rewrite exec_bind, tagStyles_one_eval, tagStyles_one_exec.
  reflexivity.
Qed.

Lemma createLoop_eval_cons env n d rest acc s :
  eval (createLoop env ((n, d) :: rest) acc) s =
  eval (createLoop env rest (<[n := PStyle (ExtractedStyle.style d)]> acc))
       (exec (tagStyle env n d) s).
Proof.
  cbn [createLoop]. rewrite eval_bind, tagStyles_one_eval, tagStyles_one_exec.
  reflexivity.
Qed.

Lemma createLoop_untagged env l acc s :
  untagged (exec (createLoop env l acc) s) = untagged s.
Proof.
  revert acc s; induction l as [|[n d] l IH]; intros acc s; [reflexivity|].
  rewrite createLoop_exec_cons, IH. apply tagStyle_untagged.
Qed.

Lemma createLoop_nextArray env l acc s :
  nextArray (exec (createLoop env l acc) s) = nextArray s.
Proof.
  revert acc s; induction l as [|[n d] l IH]; intros acc s; [reflexivity|].
  rewrite createLoop_exec_cons, IH. apply tagStyle_nextArray.
Qed.

Lemma createLoop_table env l acc s :
  styleMetaMap (exec (createLoop env l acc) s) =
  elementsTable (animationMap s) (map snd l) (styleMetaMap s).
Proof.
  revert acc s; induction l as [|[n d] l IH]; intros acc s; [reflexivity|].
  rewrite createLoop_exec_cons, IH. cbn [map snd]. rewrite elementsTable_cons.
  rewrite tagStyle_table.
  rewrite (untagged_animationMap _ _ (tagStyle_untagged env n d s)).
  reflexivity.
Qed.

Lemma createLoop_warnings env l acc s :
  warnings (exec (createLoop env l acc) s) =
  if notProduction env then warningsAfter l (warnings s) else warnings s.
Proof.
  revert acc s; induction l as [|[n d] l IH]; intros acc s.
  - destruct (notProduction env); reflexivity.
  - rewrite createLoop_exec_cons, IH, tagStyle_warnings.
    destruct (notProduction env); reflexivity.
Qed.

Lemma foldl_insert_list_to_map (l : list (string * StyleProp))
    (acc : gmap string StyleProp) :
  foldl (fun m '(k, v) => <[k := v]> m) acc l = list_to_map (reverse l) ∪ acc.
Proof.
  revert acc; induction l as [|[k v] l IH]; intros acc.
  - cbn. rewrite (left_id_L ∅ (∪)). reflexivity.
  - cbn [foldl]. rewrite IH, reverse_cons, list_to_map_app.
    change (list_to_map [(k, v)]) with (<[k := v]> (∅ : gmap string StyleProp)).
    rewrite <- (assoc_L (∪)), <- insert_union_l, (left_id_L ∅ (∪)). reflexivity.
Qed.

Lemma createLoop_eval env l acc s :
  eval (createLoop env l acc) s = list_to_map (reverse (namedPayloads l)) ∪ acc.
Proof.
  rewrite <- foldl_insert_list_to_map.
  revert acc s; induction l as [|[n d] l IH]; intros acc s; [reflexivity|].
  rewrite createLoop_eval_cons, IH. reflexivity.
Qed.

Lemma create_exec env l s :
  exec (create env l) s = exec broadcast (exec (createLoop env l ∅) s).
Proof. unfold create. rewrite !exec_bind. reflexivity. Qed.

Lemma create_eval env l s :
  eval (create env l) s = list_to_map (reverse (namedPayloads l)).
Proof.
  unfold create. rewrite !eval_bind. cbn. rewrite createLoop_eval.
  apply (right_id_L ∅ (∪)).
Qed.

(** ** The subscription set and the log across calls *)

Lemma untagged_bus s s' : untagged s = untagged s' -> bus s = bus s'.
Proof.
  intros H. unfold bus.
  rewrite (f_equal subscriptions H : subscriptions s = subscriptions s').
  rewrite (f_equal invoked H : invoked s = invoked s'). reflexivity.
Qed.

Lemma ambient_bus s s' : ambient s = ambient s' -> bus s = bus s'.
Proof.
  intros H. unfold bus.
  rewrite (f_equal subscriptions H : subscriptions s = subscriptions s').
  rewrite (f_equal invoked H : invoked s = invoked s'). reflexivity.
Qed.

Lemma broadcast_bus s : bus (exec broadcast s) = (subscriptions s, invoked s ++ subscriptions s).
Proof. rewrite broadcast_exec. reflexivity. Qed.

Lemma assignScopes_bus o s : bus (assignScopes o s) = bus s.
Proof.
  pose proof (assignScopes_outside o s) as H. unfold bus.
  rewrite (f_equal subscriptions H : subscriptions (assignScopes o s) = subscriptions s).
  rewrite (f_equal invoked H : invoked (assignScopes o s) = invoked s). reflexivity.
Qed.

Lemma register_bus env o s :
  bus (exec (register env o) s) = (subscriptions s, invoked s ++ subscriptions s).
Proof.
  rewrite register_exec, broadcast_bus.
  pose proof (assignScopes_bus o (exec (installPhase env o) s)) as H1.
  pose proof (ambient_bus _ _ (installPhase_ambient env o s)) as H2.
  unfold bus in *. congruence.
Qed.

Lemma create_bus env l s :
  bus (exec (create env l) s) = (subscriptions s, invoked s ++ subscriptions s).
Proof.
  rewrite create_exec, broadcast_bus.
  pose proof (untagged_bus _ _ (createLoop_untagged env l ∅ s)) as H.
  unfold bus in *. congruence.
Qed.

Lemma reset_bus env config s : bus (exec (__reset env config) s) = bus s.
Proof. reflexivity. Qed.

Lemma perform_bus env c s :
  bus (exec (perform env c) s) = busStep c (bus s).
Proof.
  destruct c as [o|l|cb|cb|config]; cbn [perform busStep].
  - apply register_bus.
  - rewrite exec_bind. apply create_bus.
  - reflexivity.
  - reflexivity.
  - apply reset_bus.
Qed.

Lemma run_bus env cs s :
  bus (exec (run env cs) s) = foldl (fun b c => busStep c b) (bus s) cs.
Proof.
  revert s; induction cs as [|c cs IH]; intros s; [reflexivity|].
  unfold run in *. cbn [forOf foldl]. rewrite exec_bind, IH, perform_bus.
  reflexivity.
Qed.

Lemma jsSet_delete_absent cb l : cb ∉ jsSet_delete cb l.
Proof.
  induction l as [|x l IH]; cbn.
  - apply not_elem_of_nil.
  - destruct (decide (cb = x)); [exact IH|].
    rewrite elem_of_cons. intros [?|?]; [congruence|contradiction].
Qed.

Lemma jsSet_delete_other cb x l : x ≠ cb -> x ∈ jsSet_delete cb l <-> x ∈ l.
Proof.
  intros Hne. induction l as [|y l IH]; cbn; [reflexivity|].
  destruct (decide (cb = y)) as [->|Hy]; rewrite ?elem_of_cons, IH; [|reflexivity].
  split; [auto|]. intros [?|?]; [congruence|assumption].
Qed.

Lemma jsSet_delete_id cb l : cb ∉ l -> jsSet_delete cb l = l.
Proof.
  induction l as [|x l IH]; cbn; [reflexivity|].
  rewrite not_elem_of_cons. intros [Hx Hl].
  destruct (decide (cb = x)); [contradiction|]. rewrite IH by exact Hl. reflexivity.
Qed.

Lemma jsSet_add_elem cb x l : x ∈ jsSet_add cb l <-> x = cb \/ x ∈ l.
Proof.
  induction l as [|y l IH]; cbn.
  - rewrite list_elem_of_singleton, elem_of_nil. tauto.
  - destruct (decide (cb = y)) as [->|Hy]; rewrite !elem_of_cons; [tauto|].
    rewrite IH. tauto.
Qed.

Lemma jsSet_add_spec cb l :
  jsSet_add cb l = if bool_decide (cb ∈ l) then l else l ++ [cb].
Proof.
  induction l as [|x l IH]; cbn [jsSet_add app].
  - rewrite bool_decide_false by apply not_elem_of_nil. reflexivity.
  - destruct (decide (cb = x)) as [->|Hne].
    + rewrite bool_decide_true by apply list_elem_of_here. reflexivity.
    + rewrite IH. destruct (decide (cb ∈ l)) as [Hin|Hnin].
      * rewrite !bool_decide_true; [reflexivity| |exact Hin].
        apply list_elem_of_further, Hin.
      * rewrite !bool_decide_false; [reflexivity| |exact Hnin].
        rewrite elem_of_cons. intros [?|?]; [congruence|contradiction].
Qed.

Lemma busStep_silent cb c subs log :
  resubscribes cb [c] = false -> cb ∉ subs ->
  (cb ∉ fst (busStep c (subs, log))) /\
  (exists l, snd (busStep c (subs, log)) = log ++ l /\ (cb ∉ l)).
Proof.
  intros Hc Hsubs. destruct c as [o|l|x|x|config]; cbn [busStep fst snd].
  - split; [exact Hsubs|]. exists subs. auto.
  - split; [exact Hsubs|]. exists subs. auto.
  - cbn in Hc. rewrite orb_false_r in Hc. apply bool_decide_eq_false in Hc.
    split.
    + rewrite jsSet_add_elem. intros [?|?]; [congruence|contradiction].
    + exists []. rewrite app_nil_r. split; [reflexivity|apply not_elem_of_nil].
  - split.
    + destruct (decide (cb = x)) as [->|Hx]; [apply jsSet_delete_absent|].
      rewrite jsSet_delete_other by exact Hx. exact Hsubs.
    + exists []. rewrite app_nil_r. split; [reflexivity|apply not_elem_of_nil].
  - split; [exact Hsubs|]. exists []. rewrite app_nil_r.
    split; [reflexivity|apply not_elem_of_nil].
Qed.

Lemma busRun_silent cb cs subs log :
  resubscribes cb cs = false -> cb ∉ subs ->
  (cb ∉ fst (foldl (fun b c => busStep c b) (subs, log) cs)) /\
  (exists l, snd (foldl (fun b c => busStep c b) (subs, log) cs) = log ++ l /\ (cb ∉ l)).
Proof.
  revert subs log; induction cs as [|c cs IH]; intros subs log Hcs Hsubs.
  - cbn. split; [exact Hsubs|]. exists []. rewrite app_nil_r.
    split; [reflexivity|apply not_elem_of_nil].
  - cbn [resubscribes existsb] in Hcs. apply orb_false_iff in Hcs as [Hc Hcs].
    destruct (busStep_silent cb c subs log) as (H1 & l1 & H2 & H3).
    { cbn. rewrite Hc. reflexivity. }
    { exact Hsubs. }
    cbn [foldl]. destruct (busStep c (subs, log)) as [subs1 log1] eqn:E.
    cbn [fst snd] in *. subst log1.
    destruct (IH subs1 (log ++ l1) Hcs H1) as (H4 & l2 & H5 & H6).
    split; [exact H4|]. exists (l1 ++ l2). rewrite H5, app_assoc.
    split; [reflexivity|]. rewrite elem_of_app. tauto.
Qed.

(** ** The variable scopes after [register] *)

Lemma spread_lookup (a b : gmap string JsValue) (k : string) :
  spread a b !! k = match b !! k with Some v => Some v | None => a !! k end.
Proof.
  unfold spread. rewrite lookup_union. destruct (b !! k), (a !! k); reflexivity.
Qed.

Lemma installPhase_scopes env o s :
  let s1 := exec (installPhase env o) s in
  defaultVariables s1 = defaultVariables s /\
  defaultDarkVariables s1 = defaultDarkVariables s /\
  rootVariables s1 = rootVariables s /\
  rootDarkVariables s1 = rootDarkVariables s.
Proof.
  pose proof (installPhase_ambient env o s) as H. cbv zeta.
  repeat split.
  - exact (f_equal defaultVariables H).
  - exact (f_equal defaultDarkVariables H).
  - exact (f_equal rootVariables H).
  - exact (f_equal rootDarkVariables H).
Qed.

(** C2: [register] assigns the four variable scopes in order, each only when
    its option is given: default-light becomes the input [defaultVariables];
    default-dark the input [defaultVariables] overridden by the input
    [defaultDarkVariables]; root-light the input [rootVariables] overridden
    by the current default-light scope; root-dark the input [rootVariables],
    then the input [rootDarkVariables], then the current default-dark scope,
    later entries winning.  After [register(defaultsAB)] and
    [register(rootC)] the default-dark scope is [{a:1, b:2}] and the
    root-light scope is [{c:3, a:1}]. *)
Theorem register_scopes env o s :
  let s' := exec (register env o) s in
  defaultVariables s' =
    match Options.defaultVariables o with
    | Some dv => dv
    | None => defaultVariables s
    end /\
  defaultDarkVariables s' =
    match Options.defaultDarkVariables o with
    | Some ddv => spread (orEmpty (Options.defaultVariables o)) ddv
    | None => defaultDarkVariables s
    end /\
  rootVariables s' =
    match Options.rootVariables o with
    | Some rv => spread rv (defaultVariables s')
    | None => rootVariables s
    end /\
  rootDarkVariables s' =
    match Options.rootDarkVariables o with
    | Some rdv =>
        spread (spread (orEmpty (Options.rootVariables o)) rdv)
               (defaultDarkVariables s')
    | None => rootDarkVariables s
    end /\
  (forall a b k,
     spread a b !! k = match b !! k with Some v => Some v | None => a !! k end) /\
  (let s2 := exec (register env rootC) (exec (register env defaultsAB) s) in
   defaultDarkVariables s2 = {[ "a" := JNum 1; "b" := JNum 2 ]} /\
   rootVariables s2 = {[ "c" := JNum 3; "a" := JNum 1 ]}).
Proof.
  assert (Hgen : forall o s,
    let s' := exec (register env o) s in
    defaultVariables s' =
      match Options.defaultVariables o with
      | Some dv => dv
      | None => defaultVariables s
      end /\
    defaultDarkVariables s' =
      match Options.defaultDarkVariables o with
      | Some ddv => spread (orEmpty (Options.defaultVariables o)) ddv
      | None => defaultDarkVariables s
      end /\
    rootVariables s' =
      match Options.rootVariables o with
      | Some rv => spread rv (defaultVariables s')
      | None => rootVariables s
      end /\
    rootDarkVariables s' =
      match Options.rootDarkVariables o with
      | Some rdv =>
          spread (spread (orEmpty (Options.rootVariables o)) rdv)
                 (defaultDarkVariables s')
      | None => rootDarkVariables s
      end).
  { clear o s. intros o s. cbv zeta. rewrite register_exec, broadcast_exec.
    destruct (installPhase_scopes env o s) as (H1 & H2 & H3 & H4).
    revert H1 H2 H3 H4. generalize (exec (installPhase env o) s). intros s1.
    unfold assignScopes. destruct s1.
    destruct (Options.defaultVariables o), (Options.defaultDarkVariables o),
      (Options.rootVariables o), (Options.rootDarkVariables o);
      cbn; intros; subst; repeat split; reflexivity. }
  cbv zeta. destruct (Hgen o s) as (H1 & H2 & H3 & H4).
  repeat split; try assumption.
  - intros a b k. apply spread_lookup.
  - destruct (Hgen rootC (exec (register env defaultsAB) s)) as (_ & -> & _).
    destruct (Hgen defaultsAB s) as (_ & -> & _). reflexivity.
  - destruct (Hgen rootC (exec (register env defaultsAB) s)) as (-> & _ & -> & _).
    destruct (Hgen defaultsAB s) as (-> & _). reflexivity.
Qed.

(** ** The metadata tagger *)

Lemma fieldKept_metaOf am d f :
  fieldKept (metaOf am d) f =
  match f with
  | FIsDynamic => false
  | FRequiresLayout => fieldSet d f || derivedLayout am d
  | _ => fieldSet d f
  end.
Proof.
  destruct f; cbn [fieldKept fieldSet metaOf StyleMeta.variables StyleMeta.media
    StyleMeta.pseudoClasses StyleMeta.animations StyleMeta.requiresLayout
    StyleMeta.container StyleMeta.containerQuery StyleMeta.transition
    StyleMeta.prop]; try reflexivity.
  - destruct (ExtractedStyle.media d) as [[|q qs]|]; reflexivity.
  - destruct (ExtractedStyle.pseudoClasses d) as [v|]; [|reflexivity].
    cbn [truthyLeaf]. destruct (truthyValue v); reflexivity.
  - destruct (ExtractedStyle.container d); reflexivity.
  - destruct (ExtractedStyle.transition d) as [v|]; [|reflexivity].
    cbn [truthyLeaf]. destruct (truthyValue v); reflexivity.
  - destruct (truthy (ExtractedStyle.requiresLayout d) || derivedLayout am d);
      reflexivity.
  - destruct (ExtractedStyle.prop d) as [v|]; [|reflexivity].
    cbn [truthyLeaf]. destruct (truthyValue v); reflexivity.
Qed.

(** C1, as amended: tagging a single descriptor writes an entry for its
    payload exactly when a dynamic-relevant field is set, and writes nothing
    otherwise.  A field is set when the tagger's test of it succeeds: a flag
    when it is true, [media] when it has an element, [pseudoClasses],
    [transition] and [prop] when their value is truthy, the others when they
    are there.  The entry holds the fields set on the input other than
    [isDynamic] ([container.type] defaulted to ["normal"]) and a
    [requiresLayout] when the descriptor's own flag or the animation lookup
    asks for it; [isDynamic] itself is never recorded. *)
Theorem tagStyles_entry env name d s :
  styleMetaMap (exec (tagStyles env name (One d)) s) =
    (if dynamic d
     then <[StyleObj (ExtractedStyle.style d) := metaOf (animationMap s) d]>
            (styleMetaMap s)
     else styleMetaMap s) /\
  dynamic d = existsb (fieldSet d) dynamicFields /\
  (forall f,
     fieldKept (metaOf (animationMap s) d) f =
     match f with
     | FIsDynamic => false
     | FRequiresLayout => fieldSet d f || derivedLayout (animationMap s) d
     | _ => fieldSet d f
     end) /\
  StyleMeta.container (metaOf (animationMap s) d) =
    normalised <$> ExtractedStyle.container d /\
  StyleMeta.media (metaOf (animationMap s) d) =
    (if nonEmpty (ExtractedStyle.media d) then ExtractedStyle.media d else None).
Proof.
  repeat split.
  - rewrite tagStyles_one_exec. apply tagStyle_table.
  - intros f. apply fieldKept_metaOf.
Qed.

(** C1, as stated, fails on [{ style, isDynamic: true }]: the descriptor is
    dynamic and gets an entry, but the entry is [{}] and does not contain the
    one field set on the input. *)
Lemma isDynamic_not_mirrored :
  dynamic (flagged 1) = true /\
  styleMetaMap (exec (tagStyles devEnv "a" (One (flagged 1))) (initial devEnv))
    !! StyleObj 1 = Some StyleMeta.empty /\
  ~ mirrorsInput (animationMap (initial devEnv)) (flagged 1) StyleMeta.empty.
Proof.
  split; [reflexivity|]. split; [reflexivity|].
  intros H. specialize (H FIsDynamic). discriminate H.
Qed.

Lemma animationsRequireLayout_resolves am a :
  animationsRequireLayout am a = true <-> resolvesToLayout am a.
Proof.
  unfold animationsRequireLayout, resolvesToLayout. split.
  - destruct (ExtractedAnimations.name a) as [ns|]; [|discriminate].
    intros H. apply existsb_exists in H as (n & Hin & Hn).
    unfold nameRequiresLayout, lookupName in Hn.
    destruct (String.eqb_spec (AnimationName.type n) "none") as [Ht|Ht].
    + destruct (am !! "none") as [def|] eqn:Hdef; [|discriminate].
      exists ns, n, def. rewrite list_elem_of_In.
      split; [reflexivity|]. split; [exact Hin|]. split; [|exact Hn].
      left. split; [exact Ht|reflexivity].
    + destruct (AnimationName.value n) as [v|] eqn:Hv; [|discriminate].
      destruct (am !! v) as [def|] eqn:Hdef; [|discriminate].
      exists ns, n, def. rewrite list_elem_of_In.
      split; [reflexivity|]. split; [exact Hin|]. split; [|exact Hn].
      right. split; [exact Ht|]. exists v. auto.
  - intros (ns & n & def & -> & Hin & Hres & Hl).
    apply existsb_exists. exists n. rewrite <- list_elem_of_In.
    split; [exact Hin|]. unfold nameRequiresLayout, lookupName.
    destruct Hres as [[Ht Hdef]|[Ht (v & Hv & Hdef)]].
    + rewrite Ht. cbn. rewrite Hdef. exact Hl.
    + apply String.eqb_neq in Ht. rewrite Ht, Hv, Hdef. exact Hl.
Qed.

Lemma register_animationMap env o s :
  animationMap (exec (register env o) s) =
  match Options.keyframes o with
  | Some ks => keyframesAfter ks (animationMap s)
  | None => animationMap s
  end.
Proof.
  rewrite register_exec, broadcast_exec. cbn [set_invoked animationMap].
  rewrite <- (installPhase_animationMap env o s).
  exact (f_equal animationMap (assignScopes_outside o (exec (installPhase env o) s))).
Qed.

(** C4: for a descriptor with an [animations] field, the tagger's animation
    step puts [requiresLayout: true] on the record exactly when some
    referenced name is bound in the animation map to a definition that
    requires layout.  A reference of type ["none"] stands for the name
    ["none"] whatever its [value]; any other reference stands for its
    [value]; names that are not bound ask for nothing.  The installed entry
    has the flag when that lookup or the descriptor's own flag asks for it.
    Tagging a descriptor that names ["spin"] after registering a ["spin"]
    animation with [requiresLayout: true] gives an entry with
    [requiresLayout = true]. *)
Theorem animations_requiresLayout env name d a s :
  ExtractedStyle.animations d = Some a ->
  (animationsRequireLayout (animationMap s) a = true <->
     resolvesToLayout (animationMap s) a) /\
  (forall v,
     nameRequiresLayout (animationMap s)
       {| AnimationName.type := "none"; AnimationName.value := v |} =
     match animationMap s !! "none" with
     | Some def => ExtractedAnimation.requiresLayout def
     | None => false
     end) /\
  (forall t v,
     t <> "none" -> animationMap s !! v = None ->
     nameRequiresLayout (animationMap s)
       {| AnimationName.type := t; AnimationName.value := Some v |} = false) /\
  (forall l,
     StyleMeta.requiresLayout (meta (tag_animations (animationMap s) d l)) =
     if animationsRequireLayout (animationMap s) a then Some true
     else StyleMeta.requiresLayout (meta l)) /\
  (exists m,
     styleMetaMap (exec (tagStyles env name (One d)) s)
       !! StyleObj (ExtractedStyle.style d) = Some m /\
     StyleMeta.animations m = Some a /\
     StyleMeta.requiresLayout m =
       if animationsRequireLayout (animationMap s) a ||
          truthy (ExtractedStyle.requiresLayout d)
       then Some true else None) /\
  (forall frames k,
     exists m,
       styleMetaMap (exec (tagStyles env name (One (spinning k)))
                       (exec (register env (spinKeyframes frames)) s))
         !! StyleObj k = Some m /\
       StyleMeta.requiresLayout m = Some true).
Proof.
  intros Ha. split; [apply animationsRequireLayout_resolves|].
  split; [intros v; reflexivity|]. split.
  { intros t v Ht Hv. unfold nameRequiresLayout, lookupName.
    cbn [AnimationName.type AnimationName.value].
    apply String.eqb_neq in Ht. rewrite Ht, Hv. reflexivity. }
  split; [|split].
  - intros l. unfold tag_animations. rewrite Ha. cbn.
    destruct (animationsRequireLayout (animationMap s) a); reflexivity.
  - exists (metaOf (animationMap s) d).
    rewrite tagStyles_one_exec, tagStyle_table.
    assert (Hdyn : dynamic d = true).
    { unfold dynamic. apply existsb_exists. exists FAnimations.
      split; [cbn; tauto|]. cbn. rewrite Ha. reflexivity. }
    rewrite Hdyn, lookup_insert_eq. split; [reflexivity|].
    cbn. split; [exact Ha|]. unfold derivedLayout. rewrite Ha, orb_comm.
    reflexivity.
  - intros frames k.
    exists (metaOf (animationMap (exec (register env (spinKeyframes frames)) s))
              (spinning k)).
    rewrite tagStyles_one_exec, tagStyle_table.
    change (dynamic (spinning k)) with true. cbv iota.
    split; [apply lookup_insert_eq|].
    rewrite register_animationMap.
    cbn [spinKeyframes Options.keyframes keyframesAfter foldl].
    cbn [metaOf StyleMeta.requiresLayout spinning ExtractedStyle.requiresLayout
         truthy orb derivedLayout ExtractedStyle.animations].
    unfold animationsRequireLayout.
    cbn [ExtractedAnimations.name existsb]. unfold nameRequiresLayout.
    unfold lookupName. cbn [AnimationName.type AnimationName.value].
    change ("custom" =? "none")%string with false. cbv iota.
    rewrite lookup_insert_eq. reflexivity.
Qed.

Lemma animations_requiresLayout_witness :
  ExtractedStyle.animations (spinning 1) =
    Some {| ExtractedAnimations.name :=
              Some [ {| AnimationName.type := "custom";
                        AnimationName.value := Some "spin" |} ];
            ExtractedAnimations.rest := [] |} /\
  exists m,
    styleMetaMap (exec (tagStyles devEnv "a" (One (spinning 1)))
                    (exec (register devEnv (spinKeyframes [])) (initial devEnv)))
      !! StyleObj 1 = Some m /\
    StyleMeta.requiresLayout m = Some true.
Proof.
  split; [reflexivity|].
  destruct (animations_requiresLayout devEnv "a" (spinning 1) _ (initial devEnv)
              eq_refl) as (_ & _ & _ & _ & _ & H).
  exact (H [] 1%nat).
Defined.

(** ** Arrays *)

Lemma perform_fresh_arrays env c s :
  fresh_arrays s -> fresh_arrays (exec (perform env c) s).
Proof.
  intros Hs. destruct c as [o|l|cb|cb|config]; cbn [perform].
  - rewrite register_exec, broadcast_exec.
    pose proof (installPhase_fresh env o s Hs) as H.
    pose proof (assignScopes_outside o (exec (installPhase env o) s)) as E.
    eapply fresh_arrays_ext; [| |exact H].
    + exact (eq_sym (f_equal styleMetaMap E)).
    + exact (eq_sym (f_equal nextArray E)).
  - rewrite exec_bind, exec_ret, create_exec, broadcast_exec.
    intros a Ha. cbn [set_invoked nextArray styleMetaMap] in *.
    rewrite createLoop_nextArray in Ha.
    rewrite createLoop_table, elementsTable_array. apply Hs, Ha.
  - exact Hs.
  - exact Hs.
  - exact Hs.
Qed.

(** Every state the public interface can reach keeps unallocated array
    addresses out of the side table. *)
Lemma run_fresh_arrays env cs s :
  fresh_arrays s -> fresh_arrays (exec (run env cs) s).
Proof.
  revert s; induction cs as [|c cs IH]; intros s Hs; [exact Hs|].
  unfold run in *. cbn [forOf]. rewrite exec_bind.
  apply IH, perform_fresh_arrays, Hs.
Qed.

Lemma initial_fresh_arrays env : fresh_arrays (initial env).
Proof. intros a _. apply lookup_empty. Qed.

(** C3, as amended: the array returned for a style array is a new array
    holding the elements' payloads, and it gets the sentinel entry [{}]
    exactly when the payload of some element has an entry in the side table
    once the elements are tagged; that is, when some element is dynamic or
    the payload of some element already had an entry before this call.  The
    sentinel has no field. *)
Theorem array_sentinel env name self ds s :
  fresh_arrays s ->
  let tbl := elementsTable (animationMap s) ds (styleMetaMap s) in
  let anyTagged :=
    existsb (fun d => hasEntry tbl (StyleObj (ExtractedStyle.style d))) ds in
  eval (tagStyles env name (Many self ds)) s =
    PArray (nextArray s) (map ExtractedStyle.style ds) /\
  styleMetaMap (exec (tagStyles env name (Many self ds)) s) !! ArrayObj (nextArray s) =
    (if anyTagged then Some StyleMeta.empty else None) /\
  styleMetaMap (exec (tagStyles env name (Many self ds)) s) =
    (if anyTagged then <[ArrayObj (nextArray s) := StyleMeta.empty]> tbl else tbl) /\
  anyTagged =
    existsb (fun d => dynamic d ||
               hasEntry (styleMetaMap s) (StyleObj (ExtractedStyle.style d))) ds /\
  (forall f, fieldKept StyleMeta.empty f = false).
Proof.
  intros Hs. cbv zeta. rewrite hasEntry_elementsTable, tagStyles_many_table.
  cbv zeta. repeat split.
  - apply tagStyles_many_eval.
  - destruct (existsb _ ds).
    + apply lookup_insert_eq.
    + rewrite elementsTable_array. apply Hs. reflexivity.
  - intros []; reflexivity.
Qed.

Lemma array_sentinel_witness :
  fresh_arrays (initial devEnv) /\
  styleMetaMap (exec (tagStyles devEnv "a" (Many 0%nat [flagged 1; ExtractedStyle.plain 2]))
                  (initial devEnv)) !! ArrayObj 0 = Some StyleMeta.empty.
Proof.
  split; [apply initial_fresh_arrays|].
  destruct (array_sentinel devEnv "a" 0%nat [flagged 1; ExtractedStyle.plain 2]
              (initial devEnv) (initial_fresh_arrays devEnv)) as (_ & H & _).
  exact H.
Defined.

(** C3, as stated, fails when a payload is shared: after
    [{ style: #1, isDynamic: true }] has been tagged, tagging the array
    [[{ style: #1 }]] installs nothing for its only element, and the returned
    array gets the sentinel all the same. *)
Lemma sentinel_without_tagged_element :
  fresh_arrays taggedOnce /\
  dynamic (ExtractedStyle.plain 1) = false /\
  exec (tagStyles devEnv "b" (One (ExtractedStyle.plain 1))) taggedOnce = taggedOnce /\
  eval (tagStyles devEnv "b" (Many 0%nat [ExtractedStyle.plain 1])) taggedOnce =
    PArray 0 [1%nat] /\
  styleMetaMap (exec (tagStyles devEnv "b" (Many 0%nat [ExtractedStyle.plain 1])) taggedOnce)
    !! ArrayObj 0 = Some StyleMeta.empty.
Proof.
  split.
  { apply tagStyles_fresh_arrays, initial_fresh_arrays. }
  repeat split; reflexivity.
Qed.

Lemma elementsTable_caller am ds tbl a :
  elementsTable am ds tbl !! CallerArray a = tbl !! CallerArray a.
Proof.
  revert tbl; induction ds as [|d ds IH]; intros tbl; [reflexivity|].
  rewrite elementsTable_cons, IH.
  destruct (dynamic d); [|reflexivity].
  apply lookup_insert_ne. discriminate.
Qed.

Lemma tagStyles_caller env name styles s a :
  styleMetaMap (exec (tagStyles env name styles) s) !! CallerArray a =
  styleMetaMap s !! CallerArray a.
Proof.
  destruct styles as [d|self ds].
  - rewrite tagStyles_one_exec, tagStyle_table.
    destruct (dynamic d); [|reflexivity]. apply lookup_insert_ne. discriminate.
  - rewrite tagStyles_many_table. cbv zeta.
    destruct (existsb _ ds); [rewrite lookup_insert_ne by discriminate|];
      apply elementsTable_caller.
Qed.

(** C7, as amended: tagging hands back the payload of a single descriptor
    itself.  For a style array it hands back a new array, not the input
    array: its elements are the payloads of the input elements, in order, and
    the input array gets no entry in the side table.  All that tagging
    changes besides is out of band: the side table, the warnings registry and
    the array allocation counter. *)
Theorem tagStyles_identity env name styles s :
  eval (tagStyles env name styles) s =
    match styles with
    | One d => PStyle (ExtractedStyle.style d)
    | Many _ ds => PArray (nextArray s) (map ExtractedStyle.style ds)
    end /\
  identity (eval (tagStyles env name styles) s) =
    match styles with
    | One d => StyleObj (ExtractedStyle.style d)
    | Many _ _ => ArrayObj (nextArray s)
    end /\
  nextArray (exec (tagStyles env name styles) s) =
    match styles with
    | One _ => nextArray s
    | Many _ _ => S (nextArray s)
    end /\
  (forall a, identity (eval (tagStyles env name styles) s) <> CallerArray a) /\
  (forall a,
     styleMetaMap (exec (tagStyles env name styles) s) !! CallerArray a =
     styleMetaMap s !! CallerArray a) /\
  untagged (exec (tagStyles env name styles) s) = untagged s /\
  globalStyles (exec (tagStyles env name styles) s) = globalStyles s.
Proof.
  assert (He : eval (tagStyles env name styles) s =
    match styles with
    | One d => PStyle (ExtractedStyle.style d)
    | Many _ ds => PArray (nextArray s) (map ExtractedStyle.style ds)
    end).
  { destruct styles; [apply tagStyles_one_eval|apply tagStyles_many_eval]. }
  split; [exact He|]. split; [rewrite He; destruct styles; reflexivity|].
  split; [apply tagStyles_nextArray|].
  split; [intros a; rewrite He; destruct styles; discriminate|].
  split; [intros a; apply tagStyles_caller|].
  split; [apply tagStyles_untagged|].
  exact (f_equal globalStyles (tagStyles_untagged env name styles s)).
Qed.

(** C7, as stated, fails for style arrays: tagging the caller's array #5 hands
    back another object, the array [Array.map] created, and it is that new
    array which gets the sentinel; the input array has no entry. *)
Lemma returned_array_is_not_the_input :
  identity (eval (tagStyles devEnv "a" (Many 5 [flagged 1])) (initial devEnv)) =
    ArrayObj 0 /\
  identity (eval (tagStyles devEnv "a" (Many 5 [flagged 1])) (initial devEnv)) <>
    CallerArray 5 /\
  styleMetaMap (exec (tagStyles devEnv "a" (Many 5 [flagged 1])) (initial devEnv))
    !! ArrayObj 0 = Some StyleMeta.empty /\
  styleMetaMap (exec (tagStyles devEnv "a" (Many 5 [flagged 1])) (initial devEnv))
    !! CallerArray 5 = None.
Proof.
  split; [reflexivity|]. split; [discriminate|]. split; reflexivity.
Qed.

(** ** Variable resolution *)

(** C5: [useVariables] returns, without an inherited scope, the root-light
    scope under a light appearance and the root-dark scope otherwise; with an
    inherited scope, that scope merged with the default-light (light
    appearance) or default-dark scope, the default scope winning on a key
    they share.  Under a dark appearance and without an inherited scope the
    result is the root-dark scope, whatever calls came before. *)
Theorem useVariables_resolves env inherited s :
  useVariables env inherited s =
    resolveVariables inherited (getColorScheme (Appearance env)) s /\
  (forall scope appearance k,
     resolveVariables (Some scope) appearance s !! k =
     match (if isLight appearance then defaultVariables s
            else defaultDarkVariables s) !! k with
     | Some v => Some v
     | None => scope !! k
     end) /\
  (forall appearance,
     resolveVariables None appearance s =
     if isLight appearance then rootVariables s else rootDarkVariables s) /\
  (forall cs,
     useVariables (withAppearance (Some Dark) env) None (exec (run env cs) s) =
     rootDarkVariables (exec (run env cs) s)).
Proof.
  repeat split.
  - unfold useVariables, resolveVariables, spread.
    destruct inherited, (getColorScheme (Appearance env)) as [[]|]; reflexivity.
  - intros scope appearance k. unfold resolveVariables.
    destruct appearance as [[]|]; cbn [isLight]; rewrite lookup_union;
      match goal with |- context [?m !! k] => destruct (m !! k) end;
      try reflexivity; destruct (scope !! k); reflexivity.
  - intros [[]|]; reflexivity.
Qed.

(** ** Reset *)

(** C6, as amended: [__reset] empties the named-style map, the animation
    map, the warnings, the warning-dedup set and the four variable scopes,
    and reinitialises the unit trackers and the colour-scheme tracker from
    the given sources or else the platform's; afterwards every read of the
    named-style map, the animation map and the variable scopes finds
    nothing.  The metadata side table is left as it was. *)
Theorem reset_clears env config s :
  let s' := exec (__reset env config) s in
  let dims := default (Dimensions env) (config ≫= dimensions) in
  let app := default (Appearance env) (config ≫= appearance) in
  (globalStyles s' = ∅ /\ animationMap s' = ∅ /\ warnings s' = ∅ /\ warned s' = ∅) /\
  (rootVariables s' = ∅ /\ rootDarkVariables s' = ∅ /\
   defaultVariables s' = ∅ /\ defaultDarkVariables s' = ∅) /\
  (rem s' = remDefault env /\ vw s' = window_width dims /\
   vh s' = window_height dims /\ colorScheme s' = getColorScheme app) /\
  (forall name, globalStyles s' !! name = None /\ animationMap s' !! name = None) /\
  (forall e, useVariables e None s' = ∅) /\
  (forall e scope, useVariables e (Some scope) s' = scope) /\
  styleMetaMap s' = styleMetaMap s /\
  bus s' = bus s.
Proof.
  cbv zeta. repeat split.
  - intros e. unfold useVariables. destruct (isLight _); reflexivity.
  - intros e scope. unfold useVariables, spread.
    destruct (isLight _); apply (left_id_L ∅ (∪)).
Qed.

(** C6, as stated, fails for the metadata side table: an entry installed by
    [create] is still there after [__reset]. *)
Lemma reset_keeps_metadata :
  styleMetaMap
    (exec (run devEnv [CallCreate [("a", flagged 1)]; CallReset None])
       (initial devEnv)) !! StyleObj 1 = Some StyleMeta.empty /\
  styleMetaMap
    (exec (run devEnv [CallCreate [("a", flagged 1)]; CallReset None])
       (initial devEnv)) <> ∅.
Proof.
  split; [reflexivity|].
  intros H. apply (f_equal (fun m => m !! StyleObj 1)) in H. discriminate H.
Qed.

(** ** [create] *)

Lemma namedPayloads_names styles : (namedPayloads styles).*1 = map fst styles.
Proof.
  induction styles as [|[n d] l IH]; [reflexivity|].
  cbn. rewrite <- IH. reflexivity.
Qed.

Lemma create_lookup env styles s name d :
  NoDup (map fst styles) -> (name, d) ∈ styles ->
  eval (create env styles) s !! name = Some (PStyle (ExtractedStyle.style d)).
Proof.
  intros Hnd Hin. rewrite create_eval.
  apply elem_of_list_to_map_1.
  - rewrite fmap_reverse, reverse_Permutation, namedPayloads_names. exact Hnd.
  - apply elem_of_reverse, list_elem_of_In. unfold namedPayloads.
    apply in_map_iff. exists (name, d).
    split; [reflexivity|]. apply list_elem_of_In, Hin.
Qed.

(** C8: [create] tags every descriptor, hands back the mapping from the names
    to the payloads, and calls the subscribers once it is done.  The
    named-style map, the animation map and the four variable scopes are as
    before; only the side table is written and, outside production builds,
    the warnings registry. *)
Theorem create_frame env styles s :
  let s' := exec (create env styles) s in
  eval (create env styles) s = list_to_map (reverse (namedPayloads styles)) /\
  invoked s' = invoked s ++ subscriptions s /\
  subscriptions s' = subscriptions s /\
  (globalStyles s' = globalStyles s /\ animationMap s' = animationMap s /\
   warned s' = warned s) /\
  (rootVariables s' = rootVariables s /\
   rootDarkVariables s' = rootDarkVariables s /\
   defaultVariables s' = defaultVariables s /\
   defaultDarkVariables s' = defaultDarkVariables s) /\
  styleMetaMap s' =
    elementsTable (animationMap s) (map snd styles) (styleMetaMap s) /\
  warnings s' =
    (if notProduction env then warningsAfter styles (warnings s) else warnings s).
Proof.
  cbv zeta. pose proof (create_bus env styles s) as Hb.
  rewrite create_exec, broadcast_exec in *.
  pose proof (createLoop_untagged env styles ∅ s) as Hu.
  cbn [set_invoked invoked subscriptions globalStyles animationMap warned
       rootVariables rootDarkVariables defaultVariables defaultDarkVariables
       styleMetaMap warnings].
  repeat split.
  - apply create_eval.
  - exact (f_equal snd Hb).
  - exact (f_equal fst Hb).
  - exact (f_equal globalStyles Hu).
  - exact (f_equal animationMap Hu).
  - exact (f_equal warned Hu).
  - exact (f_equal rootVariables Hu).
  - exact (f_equal rootDarkVariables Hu).
  - exact (f_equal defaultVariables Hu).
  - exact (f_equal defaultDarkVariables Hu).
  - apply createLoop_table.
  - apply createLoop_warnings.
Qed.

(** ** Subscriptions *)

Lemma register_invoked env o s :
  invoked (exec (register env o) s) = invoked s ++ subscriptions s.
Proof. exact (f_equal snd (register_bus env o s)). Qed.

Lemma create_invoked env styles s :
  invoked (exec (create env styles) s) = invoked s ++ subscriptions s.
Proof. exact (f_equal snd (create_bus env styles s)). Qed.

Lemma unsubscribe_absent cb s : cb ∉ subscriptions s -> exec (unsubscribe cb) s = s.
Proof.
  intros H. unfold unsubscribe. rewrite exec_modify, jsSet_delete_id by exact H.
  apply set_subscriptions_same.
Qed.

(** C9, as amended: the function returned by [__subscribe] removes the
    callback from the subscription set; from then on, for as long as the same
    function is not subscribed again, no broadcast of [register] or [create]
    calls it, and calling the returned function once more changes nothing. *)
Theorem unsubscribe_silences env cb s before after :
  resubscribes cb after = false ->
  let unsub := eval (__subscribe cb) s in
  let s1 := exec (run env before) (exec (__subscribe cb) s) in
  let s2 := exec unsub s1 in
  let s3 := exec (run env after) s2 in
  (cb ∉ subscriptions s2) /\
  (exists l, invoked s3 = invoked s2 ++ l /\ (cb ∉ l)) /\
  exec unsub s2 = s2 /\
  exec unsub s3 = s3.
Proof.
  intros Hafter. cbv zeta.
  change (eval (__subscribe cb) s) with (unsubscribe cb).
  set (s1 := exec (run env before) (exec (__subscribe cb) s)).
  set (s2 := exec (unsubscribe cb) s1).
  assert (H2 : cb ∉ subscriptions s2) by apply jsSet_delete_absent.
  pose proof (run_bus env after s2) as Hb.
  destruct (busRun_silent cb after (subscriptions s2) (invoked s2) Hafter H2)
    as (H3 & l & Hl & Hcb).
  fold (bus s2) in H3, Hl. rewrite <- Hb in H3, Hl.
  split; [exact H2|]. split; [exists l; split; [exact Hl|exact Hcb]|].
  split; apply unsubscribe_absent; assumption.
Qed.

Lemma unsubscribe_silences_witness :
  resubscribes 7%nat [CallRegister rootC; CallSubscribe 8%nat; CallCreate []] = false /\
  exists l,
    invoked (exec (run devEnv [CallRegister rootC; CallSubscribe 8%nat; CallCreate []])
               (exec (unsubscribe 7%nat)
                  (exec (run devEnv [CallRegister defaultsAB])
                     (exec (__subscribe 7%nat) (initial devEnv))))) =
    invoked (exec (unsubscribe 7%nat)
               (exec (run devEnv [CallRegister defaultsAB])
                  (exec (__subscribe 7%nat) (initial devEnv)))) ++ l /\
    (7%nat ∉ l).
Proof.
  split; [reflexivity|].
  destruct (unsubscribe_silences devEnv 7%nat (initial devEnv)
              [CallRegister defaultsAB]
              [CallRegister rootC; CallSubscribe 8%nat; CallCreate []] eq_refl)
    as (_ & H & _).
  exact H.
Defined.

(** C9, as stated, fails once the same function is subscribed again: a
    later broadcast calls it although its first subscription was removed,
    and calling the old unsubscribe function a second time is no no-op, it
    removes the later subscription. *)
Lemma resubscribed_callback_is_called :
  invoked
    (exec (run devEnv [CallSubscribe 7%nat; CallUnsubscribe 7%nat;
                       CallSubscribe 7%nat; CallRegister Options.none])
       (initial devEnv)) = [7%nat] /\
  subscriptions
    (exec (__subscribe 7%nat)
       (exec (eval (__subscribe 7%nat) (initial devEnv))
          (exec (__subscribe 7%nat) (initial devEnv)))) = [7%nat] /\
  subscriptions
    (exec (eval (__subscribe 7%nat) (initial devEnv))
       (exec (__subscribe 7%nat)
          (exec (eval (__subscribe 7%nat) (initial devEnv))
             (exec (__subscribe 7%nat) (initial devEnv))))) = [].
Proof. repeat split; reflexivity. Qed.

(** C10, as amended: subscriptions are told apart by the callback function.
    With two different functions they are independent: once the function
    returned for one has been called, the other callback is still in the set
    and is called by every later broadcast of [register] or [create], until
    its own function is called as well.  Subscribing one function twice is
    the same as subscribing it once, so the function returned by either
    subscription removes it and later broadcasts no longer call it. *)
Theorem subscriptions_by_function env c1 c2 s o styles :
  let unsub1 := eval (__subscribe c1) s in
  let s1 := exec (__subscribe c1) s in
  let unsub2 := eval (__subscribe c2) s1 in
  let s2 := exec (__subscribe c2) s1 in
  (c1 ∈ subscriptions s2 /\ c2 ∈ subscriptions s2) /\
  exec (__subscribe c1) s1 = s1 /\
  ((c1 ∉ subscriptions (exec unsub1 s2)) /\
   bool_decide (c2 ∈ subscriptions (exec unsub1 s2)) = bool_decide (c1 <> c2)) /\
  ((c2 ∉ subscriptions (exec unsub2 s2)) /\
   bool_decide (c1 ∈ subscriptions (exec unsub2 s2)) = bool_decide (c1 <> c2)) /\
  ((c1 ∉ subscriptions (exec unsub2 (exec unsub1 s2))) /\
   (c2 ∉ subscriptions (exec unsub2 (exec unsub1 s2)))) /\
  invoked (exec (register env o) (exec unsub1 s2)) =
    invoked s ++ subscriptions (exec unsub1 s2) /\
  invoked (exec (create env styles) (exec unsub1 s2)) =
    invoked s ++ subscriptions (exec unsub1 s2).
Proof.
  cbv zeta.
  change (eval (__subscribe c1) s) with (unsubscribe c1).
  change (eval (__subscribe c2) (exec (__subscribe c1) s)) with (unsubscribe c2).
  rewrite register_invoked, create_invoked.
  change (invoked (exec (unsubscribe c1)
            (exec (__subscribe c2) (exec (__subscribe c1) s))))
    with (invoked s).
  change (subscriptions (exec (__subscribe c2) (exec (__subscribe c1) s)))
    with (jsSet_add c2 (jsSet_add c1 (subscriptions s))).
  change (subscriptions (exec (unsubscribe c1)
            (exec (__subscribe c2) (exec (__subscribe c1) s))))
    with (jsSet_delete c1 (jsSet_add c2 (jsSet_add c1 (subscriptions s)))).
  change (subscriptions (exec (unsubscribe c2)
            (exec (__subscribe c2) (exec (__subscribe c1) s))))
    with (jsSet_delete c2 (jsSet_add c2 (jsSet_add c1 (subscriptions s)))).
  change (subscriptions (exec (unsubscribe c2) (exec (unsubscribe c1)
            (exec (__subscribe c2) (exec (__subscribe c1) s)))))
    with (jsSet_delete c2 (jsSet_delete c1
            (jsSet_add c2 (jsSet_add c1 (subscriptions s))))).
  assert (H1 : c1 ∈ jsSet_add c2 (jsSet_add c1 (subscriptions s))).
  { rewrite !jsSet_add_elem. auto. }
  assert (H2 : c2 ∈ jsSet_add c2 (jsSet_add c1 (subscriptions s))).
  { rewrite !jsSet_add_elem. auto. }
  assert (Hother : forall x y l, x ∈ l ->
            bool_decide (x ∈ jsSet_delete y l) = bool_decide (y <> x)).
  { intros x y l Hx. destruct (decide (y = x)) as [->|Hne].
    - rewrite bool_decide_false by apply jsSet_delete_absent.
      rewrite bool_decide_false; [reflexivity|]. intros H. apply H. reflexivity.
    - rewrite !bool_decide_true; [reflexivity|exact Hne|].
      apply jsSet_delete_other; [congruence|exact Hx]. }
  split; [split; assumption|].
  split.
  { unfold __subscribe. rewrite !exec_bind, !exec_ret, !exec_modify.
    cbn [set_subscriptions subscriptions].
    assert (E : jsSet_add c1 (jsSet_add c1 (subscriptions s)) =
                jsSet_add c1 (subscriptions s)).
    { rewrite (jsSet_add_spec c1 (jsSet_add c1 (subscriptions s))).
      rewrite bool_decide_true; [reflexivity|].
      apply jsSet_add_elem. left. reflexivity. }
    rewrite E. reflexivity. }
  split; [split; [apply jsSet_delete_absent|apply Hother, H2]|].
  split.
  { split; [apply jsSet_delete_absent|].
    rewrite (Hother c1 c2 _ H1). apply bool_decide_ext.
    split; intros H E; apply H; congruence. }
  split; [|split; reflexivity].
  split; [|apply jsSet_delete_absent].
  destruct (decide (c1 = c2)) as [->|Hne]; [apply jsSet_delete_absent|].
  rewrite jsSet_delete_other by exact Hne. apply jsSet_delete_absent.
Qed.

(** C10, as stated, fails when the same function is subscribed twice: the set
    holds it once, so calling the function returned by the first
    subscription leaves the set empty, and the next broadcast calls nobody
    although the second subscription was never removed. *)
Lemma same_callback_subscribed_once :
  subscriptions (exec (__subscribe 7%nat) (exec (__subscribe 7%nat) (initial devEnv)))
    = [7%nat] /\
  subscriptions
    (exec (eval (__subscribe 7%nat) (initial devEnv))
       (exec (__subscribe 7%nat) (exec (__subscribe 7%nat) (initial devEnv)))) = [] /\
  invoked
    (exec (register devEnv Options.none)
       (exec (eval (__subscribe 7%nat) (initial devEnv))
          (exec (__subscribe 7%nat) (exec (__subscribe 7%nat) (initial devEnv))))) = [].
Proof. repeat split; reflexivity. Qed.

(** ** The animation map and the named-style map after [register] *)

Lemma lastBinding_snoc {A} (name n : string) (x : A) (entries : list (string * A)) :
  lastBinding name (entries ++ [(n, x)]) =
  if decide (n = name) then Some x else lastBinding name entries.
Proof.
  induction entries as [|[m y] l IH]; cbn [lastBinding app].
  - destruct (decide (n = name)); reflexivity.
  - rewrite IH. destruct (decide (n = name)); [reflexivity|].
    reflexivity.
Qed.

Lemma keyframesAfter_lookup ks am (name : string) :
  keyframesAfter ks am !! name =
  match lastBinding name ks with
  | Some k => Some k
  | None => am !! name
  end.
Proof.
  induction ks as [|[n k] ks IH] using rev_ind; [reflexivity|].
  unfold keyframesAfter in *. rewrite foldl_app. cbn [foldl].
  rewrite lastBinding_snoc, lookup_insert.
  destruct (decide (n = name)); [reflexivity|exact IH].
Qed.

(** X1: after [register], a name bound by the call's [keyframes] resolves to
    its (last) definition there, and every other name resolves as before;
    no animation is ever removed by [register]. *)
Theorem register_keyframes_lookup env o s (name : string) :
  animationMap (exec (register env o) s) !! name =
  match lastBinding name (entriesOf (Options.keyframes o)) with
  | Some k => Some k
  | None => animationMap s !! name
  end.
Proof.
  rewrite register_animationMap.
  destruct (Options.keyframes o) as [ks|]; [apply keyframesAfter_lookup|reflexivity].
Qed.


Lemma installPhase_exec env o s :
  exec (installPhase env o) s =
  exec (declarationsLoop env (entriesOf (Options.declarations o)))
       (match Options.keyframes o with
        | Some ks => set_animationMap (keyframesAfter ks (animationMap s)) s
        | None => s
        end).
Proof.
  unfold installPhase. rewrite exec_bind.
  destruct (Options.keyframes o) as [ks|]; [rewrite keyframes_loop_exec|];
    destruct (Options.declarations o); reflexivity.
Qed.




(** ** The side table across calls *)

Lemma declarationsLoop_cons env n x ds s :
  exec (declarationsLoop env ((n, x) :: ds)) s =
  exec (declarationsLoop env ds)
       (exec (globalStyles_set n (eval (tagStyles env n x) s))
             (exec (tagStyles env n x) s)).
Proof. unfold declarationsLoop. cbn [forOf]. rewrite !exec_bind. reflexivity. Qed.

Lemma tagStyles_tagTable env n x s :
  (styleMetaMap (exec (tagStyles env n x) s), nextArray (exec (tagStyles env n x) s)) =
  tagTable (animationMap s) (styleMetaMap s, nextArray s) x.
Proof.
  rewrite tagStyles_nextArray. destruct x as [d|self ds]; cbn [tagTable fst snd].
  - rewrite tagStyles_one_exec, tagStyle_table. reflexivity.
  - rewrite tagStyles_many_table. reflexivity.
Qed.

Lemma declarationsLoop_table env ds s :
  (styleMetaMap (exec (declarationsLoop env ds) s),
   nextArray (exec (declarationsLoop env ds) s)) =
  foldl (tagTable (animationMap s)) (styleMetaMap s, nextArray s) (map snd ds).
Proof.
  revert s; induction ds as [|[n x] ds IH]; intros s; [reflexivity|].
  rewrite declarationsLoop_cons, IH. cbn [map snd foldl].
  unfold globalStyles_set. rewrite exec_modify.
  cbn [set_globalStyles animationMap styleMetaMap nextArray].
  rewrite tagStyles_tagTable.
  rewrite (f_equal animationMap (tagStyles_untagged env n x s) :
             animationMap (exec (tagStyles env n x) s) = animationMap s).
  reflexivity.
Qed.

(** X3: within one [register] call the keyframes are installed before the
    declarations are tagged: the side table and the array counter after the
    call are those obtained by tagging the declarations in order against the
    animation map as the call leaves it.  Without declarations the side table
    is untouched, so animations registered later do not change entries that
    exist already. *)
Theorem register_table env o s :
  let s' := exec (register env o) s in
  (styleMetaMap s', nextArray s') =
  foldl (tagTable (animationMap s')) (styleMetaMap s, nextArray s)
        (map snd (entriesOf (Options.declarations o))).
Proof.
  cbv zeta. rewrite register_animationMap.
  rewrite register_exec, broadcast_exec.
  cbn [set_invoked styleMetaMap nextArray].
  rewrite (f_equal styleMetaMap (assignScopes_outside o _) :
             styleMetaMap (assignScopes o _) = styleMetaMap _).
  rewrite (f_equal nextArray (assignScopes_outside o _) :
             nextArray (assignScopes o _) = nextArray _).
  cbn [styleMetaMap nextArray set_defaultVariables set_defaultDarkVariables
       set_rootVariables set_rootDarkVariables].
  rewrite installPhase_exec, declarationsLoop_table.
  destruct (Options.keyframes o); reflexivity.
Qed.

Lemma hasEntry_dom (tbl : gmap ObjRef StyleMeta.t) k :
  hasEntry tbl k = true <-> k ∈ dom tbl.
Proof.
  unfold hasEntry. rewrite bool_decide_eq_true, elem_of_dom. reflexivity.
Qed.

Lemma elementsTable_dom am ds (tbl : gmap ObjRef StyleMeta.t) :
  dom tbl ⊆ dom (elementsTable am ds tbl).
Proof.
  intros k Hk. apply hasEntry_dom. rewrite hasEntry_elementsTable_key.
  apply hasEntry_dom in Hk. rewrite Hk. reflexivity.
Qed.

Lemma tagTable_dom am acc x : dom (fst acc) ⊆ dom (fst (tagTable am acc x)).
Proof.
  destruct x as [d|self ds]; cbn [tagTable fst].
  - destruct (dynamic d); [|reflexivity]. rewrite dom_insert_L. set_solver.
  - cbv zeta. pose proof (elementsTable_dom am ds (fst acc)) as H.
    destruct (existsb _ ds); [|exact H]. rewrite dom_insert_L. set_solver.
Qed.

Lemma foldl_tagTable_dom am xs acc :
  dom (fst acc) ⊆ dom (fst (foldl (tagTable am) acc xs)).
Proof.
  revert acc; induction xs as [|x xs IH]; intros acc; [reflexivity|].
  cbn [foldl]. etransitivity; [apply (tagTable_dom am acc x)|apply IH].
Qed.

Lemma perform_table_dom env c s :
  dom (styleMetaMap s) ⊆ dom (styleMetaMap (exec (perform env c) s)).
Proof.
  destruct c as [o|l|cb|cb|config]; cbn [perform].
  - pose proof (f_equal fst (register_table env o s)) as H. cbv zeta in H.
    cbn [fst] in H. rewrite H.
    apply (foldl_tagTable_dom _ _ (styleMetaMap s, nextArray s)).
  - rewrite exec_bind, exec_ret, create_exec, broadcast_exec.
    cbn [set_invoked styleMetaMap]. rewrite createLoop_table.
    apply elementsTable_dom.
  - reflexivity.
  - reflexivity.
  - reflexivity.
Qed.

(** X4: no call of the public interface removes an entry from the metadata
    side table: whatever has an entry keeps one through any sequence of
    [register], [create], [__subscribe], unsubscribe and [__reset] calls. *)
Theorem metadata_never_removed env cs s :
  dom (styleMetaMap s) ⊆ dom (styleMetaMap (exec (run env cs) s)).
Proof.
  revert s; induction cs as [|c cs IH]; intros s; [reflexivity|].
  unfold run in *. cbn [forOf]. rewrite exec_bind.
  etransitivity; [apply (perform_table_dom env c s)|apply IH].
Qed.

(** ** Warnings of a style array *)

Lemma mapTag_warnings env name ds b s :
  warnings (exec (mapTag env name ds b) s) =
  if notProduction env
  then match lastWarnings ds with
       | Some w => <[name := w]> (warnings s)
       | None => warnings s
       end
  else warnings s.
Proof.
  revert b s; induction ds as [|d ds IH]; intros b s.
  - cbn [lastWarnings]. destruct (notProduction env); reflexivity.
  - rewrite mapTag_exec_step, IH, tagStyle_warnings. cbn [lastWarnings].
    destruct (notProduction env); [|reflexivity].
    destruct (lastWarnings ds) as [w|]; [|reflexivity].
    destruct (ExtractedStyle.warnings d); [|reflexivity].
    apply insert_insert_eq.
Qed.

Lemma tagStyles_warnings env name styles s :
  warnings (exec (tagStyles env name styles) s) =
  if notProduction env
  then match match styles with
             | One d => ExtractedStyle.warnings d
             | Many _ ds => lastWarnings ds
             end with
       | Some w => <[name := w]> (warnings s)
       | None => warnings s
       end
  else warnings s.
Proof.
  destruct styles as [d|self ds].
  - rewrite tagStyles_one_exec. apply tagStyle_warnings.
  - rewrite tagStyles_many_exec. cbv zeta.
    destruct (existsb _ ds); cbn [set_styleMetaMap warnings];
      rewrite mapTag_warnings; reflexivity.
Qed.

(** X5: the warnings registry is keyed by the name, not by the element: when
    a style array is tagged outside production, the name ends up with the
    warnings of the last element that carries any, those of earlier elements
    are overwritten, and an array without warnings leaves the registry as it
    was.  In production nothing is written. *)
Theorem array_warnings_last_wins env name self ds s :
  warnings (exec (tagStyles env name (Many self ds)) s) =
  if notProduction env
  then match lastWarnings ds with
       | Some w => <[name := w]> (warnings s)
       | None => warnings s
       end
  else warnings s.
Proof. apply (tagStyles_warnings env name (Many self ds) s). Qed.

(** ** Subscribing as [Set.add] *)

(** X6: [__subscribe] behaves as [Set.add]: a callback that is not yet
    subscribed is put behind the others, and one that is subscribed already
    keeps its place and is not added a second time, so subscribing twice is
    the same as subscribing once. *)
Theorem subscribe_insertion_order cb s :
  subscriptions (exec (__subscribe cb) s) =
    (if bool_decide (cb ∈ subscriptions s) then subscriptions s
     else subscriptions s ++ [cb]) /\
  exec (__subscribe cb) (exec (__subscribe cb) s) = exec (__subscribe cb) s.
Proof.
  split.
  - apply jsSet_add_spec.
  - unfold __subscribe. rewrite !exec_bind, !exec_ret, !exec_modify.
    cbn [set_subscriptions subscriptions].
    assert (H : jsSet_add cb (jsSet_add cb (subscriptions s)) =
                jsSet_add cb (subscriptions s)).
    { rewrite (jsSet_add_spec cb (jsSet_add cb (subscriptions s))).
      rewrite bool_decide_true; [reflexivity|].
      apply jsSet_add_elem. left. reflexivity. }
    rewrite H. reflexivity.
Qed.

(** ** Tagging a payload again *)

(** X8: the side table holds one entry per payload, replaced as a whole:
    when two descriptors share their payload and are tagged one after the
    other, the entry is that of the second if it is dynamic; if the second
    is static the entry written for the first (or the one found before)
    stays. *)
Theorem retagging_replaces_entry env n1 n2 d1 d2 s :
  ExtractedStyle.style d1 = ExtractedStyle.style d2 ->
  styleMetaMap (exec (tagStyles env n2 (One d2)) (exec (tagStyles env n1 (One d1)) s))
    !! StyleObj (ExtractedStyle.style d1) =
  if dynamic d2 then Some (metaOf (animationMap s) d2)
  else if dynamic d1 then Some (metaOf (animationMap s) d1)
  else styleMetaMap s !! StyleObj (ExtractedStyle.style d1).
Proof.
  intros E. rewrite !tagStyles_one_exec, !tagStyle_table.
  rewrite (untagged_animationMap _ _ (tagStyle_untagged env n1 d1 s)).
  rewrite <- E.
  destruct (dynamic d2), (dynamic d1); rewrite ?lookup_insert_eq; reflexivity.
Qed.

Lemma retagging_replaces_entry_witness :
  ExtractedStyle.style (flagged 1) = ExtractedStyle.style (ExtractedStyle.plain 1) /\
  styleMetaMap
    (exec (tagStyles devEnv "b" (One (ExtractedStyle.plain 1)))
       (exec (tagStyles devEnv "a" (One (flagged 1))) (initial devEnv)))
    !! StyleObj 1 = Some StyleMeta.empty.
Proof.
  split; [reflexivity|].
  exact (retagging_replaces_entry devEnv "a" "b" (flagged 1)
           (ExtractedStyle.plain 1) (initial devEnv) eq_refl).
Defined.

(** ** Static arrays *)

Lemma elementsTable_static am ds tbl :
  existsb dynamic ds = false -> elementsTable am ds tbl = tbl.
Proof.
  revert tbl; induction ds as [|d ds IH]; intros tbl H; [reflexivity|].
  cbn [existsb] in H. apply orb_false_iff in H as [Hd Hds].
  rewrite elementsTable_cons, Hd. apply IH, Hds.
Qed.

(** X9: an array none of whose elements is dynamic and none of whose payloads
    has an entry yet leaves the side table exactly as it was, the empty array
    included: neither an element entry nor the sentinel is written. *)
Theorem static_array_writes_nothing env name self ds s :
  existsb (fun d => dynamic d ||
             hasEntry (styleMetaMap s) (StyleObj (ExtractedStyle.style d))) ds = false ->
  styleMetaMap (exec (tagStyles env name (Many self ds)) s) = styleMetaMap s /\
  eval (tagStyles env name (Many self ds)) s =
    PArray (nextArray s) (map ExtractedStyle.style ds).
Proof.
  intros H. split; [|apply tagStyles_many_eval].
  rewrite tagStyles_many_table. cbv zeta. rewrite H.
  apply elementsTable_static.
  apply not_true_is_false. intros Hex.
  apply existsb_exists in Hex as (d & Hin & Hd).
  assert (Ht : existsb (fun d => dynamic d ||
             hasEntry (styleMetaMap s) (StyleObj (ExtractedStyle.style d))) ds = true).
  { apply existsb_exists. exists d. rewrite Hd. auto. }
  congruence.
Qed.

Lemma static_array_writes_nothing_witness :
  existsb (fun d => dynamic d ||
             hasEntry (styleMetaMap taggedOnce) (StyleObj (ExtractedStyle.style d)))
    [ExtractedStyle.plain 2; ExtractedStyle.plain 3] = false /\
  styleMetaMap
    (exec (tagStyles devEnv "a"
             (Many 0%nat [ExtractedStyle.plain 2; ExtractedStyle.plain 3])) taggedOnce) =
  styleMetaMap taggedOnce.
Proof.
  split; [reflexivity|].
  destruct (static_array_writes_nothing devEnv "a" 0%nat
              [ExtractedStyle.plain 2; ExtractedStyle.plain 3] taggedOnce eq_refl)
    as [H _].
  exact H.
Defined.

(** ** [create] and [register] side by side *)

Lemma tagStyle_set_globalStyles env n d g s :
  exec (tagStyle env n d) (set_globalStyles g s) =
  set_globalStyles g (exec (tagStyle env n d) s).
Proof.
  unfold tagStyle. unfold_M. cbn [set_globalStyles animationMap].
  destruct (notProduction env), (ExtractedStyle.warnings d), (hasMeta _); reflexivity.
Qed.

Lemma createLoop_set_globalStyles env l acc g s :
  exec (createLoop env l acc) (set_globalStyles g s) =
  set_globalStyles g (exec (createLoop env l acc) s).
Proof.
  revert acc s; induction l as [|[n d] l IH]; intros acc s; [reflexivity|].
  rewrite !createLoop_exec_cons, tagStyle_set_globalStyles. apply IH.
Qed.

Lemma createLoop_acc env l acc acc' s :
  exec (createLoop env l acc) s = exec (createLoop env l acc') s.
Proof.
  revert acc acc' s; induction l as [|[n d] l IH]; intros acc acc' s; [reflexivity|].
  rewrite !createLoop_exec_cons. apply IH.
Qed.

Lemma declarationsLoop_createLoop env l s :
  exec (declarationsLoop env (map (fun '(name, d) => (name, One d)) l)) s =
  set_globalStyles
    (foldl (fun m '(k, v) => <[k := v]> m) (globalStyles s) (namedPayloads l))
    (exec (createLoop env l ∅) s).
Proof.
  revert s; induction l as [|[n d] l IH]; intros s.
  - destruct s; reflexivity.
  - cbn [map]. rewrite declarationsLoop_cons, IH, createLoop_exec_cons.
    rewrite tagStyles_one_eval, tagStyles_one_exec.
    unfold globalStyles_set. rewrite exec_modify.
    rewrite createLoop_set_globalStyles.
    cbn [set_globalStyles globalStyles namedPayloads map foldl].
    rewrite (createLoop_acc env l ∅ (<[n := PStyle (ExtractedStyle.style d)]> ∅)).
    rewrite (f_equal globalStyles (tagStyle_untagged env n d s) :
               globalStyles (exec (tagStyle env n d) s) = globalStyles s).
    reflexivity.
Qed.

(** X10: [register] with declarations of single descriptors does what
    [create] does on the same entries and, on top, installs the mapping
    [create] returns into the named-style map, over the bindings that are
    there (a declared name replaces its earlier binding).  The side table,
    the warnings and the broadcast are the same. *)
Theorem register_is_create_installed env styles s :
  exec (register env (declarationsOnly styles)) s =
  set_globalStyles (eval (create env styles) s ∪ globalStyles s)
                   (exec (create env styles) s).
Proof.
  rewrite register_exec, create_exec, create_eval, !broadcast_exec.
  rewrite <- foldl_insert_list_to_map.
  change (assignScopes (declarationsOnly styles)
            (exec (installPhase env (declarationsOnly styles)) s))
    with (exec (installPhase env (declarationsOnly styles)) s).
  rewrite installPhase_exec.
  cbn [declarationsOnly Options.keyframes Options.declarations entriesOf].
  rewrite declarationsLoop_createLoop. reflexivity.
Qed.

(** ** Production builds *)

Lemma declarationsLoop_warnings_production env ds s :
  notProduction env = false ->
  warnings (exec (declarationsLoop env ds) s) = warnings s.
Proof.
  intros Hp. revert s; induction ds as [|[n x] ds IH]; intros s; [reflexivity|].
  rewrite declarationsLoop_cons, IH. unfold globalStyles_set.
  rewrite exec_modify. cbn [set_globalStyles warnings].
  rewrite tagStyles_warnings, Hp. reflexivity.
Qed.

Lemma perform_warnings_production env c s :
  notProduction env = false ->
  warnings (exec (perform env c) s) ⊆ warnings s.
Proof.
  intros Hp. destruct c as [o|l|cb|cb|config]; cbn [perform].
  - rewrite register_exec, broadcast_exec. cbn [set_invoked warnings].
    rewrite (f_equal warnings (assignScopes_outside o _) :
               warnings (assignScopes o _) = warnings _).
    cbn [warnings set_defaultVariables set_defaultDarkVariables
         set_rootVariables set_rootDarkVariables].
    rewrite installPhase_exec, declarationsLoop_warnings_production by exact Hp.
    destruct (Options.keyframes o); reflexivity.
  - rewrite exec_bind, exec_ret, create_exec, broadcast_exec.
    cbn [set_invoked warnings]. rewrite createLoop_warnings, Hp. reflexivity.
  - reflexivity.
  - reflexivity.
  - apply map_empty_subseteq.
Qed.

(** X11: in a production build no call ever adds to the warnings registry:
    after any sequence of calls it holds at most what it held before
    ([__reset] empties it), whatever warnings the descriptors carry. *)
Theorem production_never_warns env cs s :
  notProduction env = false ->
  warnings (exec (run env cs) s) ⊆ warnings s.
Proof.
  intros Hp. revert s; induction cs as [|c cs IH]; intros s; [reflexivity|].
  unfold run in *. cbn [forOf]. rewrite exec_bind.
  etransitivity; [apply IH|apply perform_warnings_production, Hp].
Qed.

Lemma production_never_warns_witness :
  notProduction prodEnv = false /\
  warnings
    (exec (run prodEnv
             [CallCreate [("a", warning 1 (JStr "unsupported"))];
              CallRegister (declarationsOnly [("b", warning 2 (JStr "unsupported"))])])
       (initial prodEnv)) ⊆ warnings (initial prodEnv).
Proof.
  split; [reflexivity|].
  exact (production_never_warns prodEnv
           [CallCreate [("a", warning 1 (JStr "unsupported"))];
            CallRegister (declarationsOnly [("b", warning 2 (JStr "unsupported"))])]
           (initial prodEnv) eq_refl).
Defined.

(** ** Resolving variables again *)

(** X12: resolution is idempotent below the root: handing the scope that
    [useVariables] returned down as the inherited scope and resolving again,
    in the same state and under the same appearance, returns that scope
    unchanged. *)
Theorem useVariables_idempotent env inherited s :
  useVariables env (Some (useVariables env (Some inherited) s)) s =
  useVariables env (Some inherited) s.
Proof.
  unfold useVariables, spread.
  destruct (isLight (getColorScheme (Appearance env)));
    rewrite (assoc_L (∪)), (idemp_L (∪)); reflexivity.
Qed.
